(** * Personal finance visualizer: stores and aggregation engine

    A shallow embedding of
    - [lib/utils.js]: [groupTransactionsByMonth], [calculateCategoryTotals],
      [getTransactionsForMonth], [calculateMonthlyExpensesByCategory],
      [compareBudgetWithActual], [generateInsights];
    - [lib/transactionContext.js]: [updateTransaction], [deleteTransaction],
      [getStats];
    - [lib/budgetContext.js]: [addOrUpdateBudget], [deleteBudget].

    Conventions of the embedding.
    - A JavaScript number holding an amount is a [Z], the amount counted in
      the smallest currency unit. The code only adds, subtracts, takes
      absolute values, compares and divides one amount by another; the
      arithmetic is exact here, as it is for doubles on integers below 2^53.
      On amounts with a fractional part the code's doubles differ from it in
      two ways: a sum depends on the order of its additions, and a
      percentage whose exact value is a tie can print one less (201 of 200
      prints 100). The properties below stay clear of both: none equates
      two sums taken in different orders, and a percentage is only located
      (finite, between 0 and 100, on one side of 100), never computed.
    - An array is a [list]; an array that the code mutates in place is passed
      in and returned (explicit state passing).
    - An object used as a dictionary is an association list in insertion
      order ([Js.Obj]); the property names inherited from [Object.prototype]
      are not used as keys.
    - A React state updater [setX(prev => ...)] is a function of [prev] that
      returns the next state together with what the promise settles to.
    - The clock, the id generator and the [Date] / date-fns library are the
      environment: timestamps and generated ids are arguments, dates come
      from the class [DateEnv]. *)

From Stdlib Require Import ZArith List String Ascii Bool Lia.
From Stdlib Require Import Sorted Permutation OrderedTypeEx DecimalString.
Import ListNotations.
Local Open Scope string_scope.
Local Open Scope list_scope.
Local Open Scope Z_scope.

(** ** JavaScript built-ins used by the code *)

Module Js.

Section Arrays.
Context {A : Type}.

(** One step of a stable insertion: [x] comes from before every element of
    [l] in the original array, so it stays in front of the elements it
    compares equal to. *)
Fixpoint insert (compareFn : A -> A -> Z) (x : A) (l : list A) : list A :=
  match l with
  | [] => [x]
  | y :: l' =>
      if compareFn x y <=? 0 then x :: l else y :: insert compareFn x l'
  end.

(** [Array.prototype.sort(compareFn)]: a stable sort (ES2019). *)
Definition sort (compareFn : A -> A -> Z) (l : list A) : list A :=
  fold_right (insert compareFn) [] l.

(** [Array.prototype.findIndex]: the first index whose element satisfies
    [p], or [-1]. *)
Fixpoint findIndex (p : A -> bool) (l : list A) : Z :=
  match l with
  | [] => -1
  | x :: l' =>
      if p x then 0
      else let i := findIndex p l' in if i <? 0 then -1 else i + 1
  end.

(** [!arr.length] *)
Definition isEmpty (l : list A) : bool :=
  match l with [] => true | _ :: _ => false end.

(** [arr[i]] for an index that [findIndex] returned. *)
Definition at_ (l : list A) (i : Z) : option A :=
  if i <? 0 then None else nth_error l (Z.to_nat i).

(** [arr[i] = x] for [0 <= i < arr.length]. *)
Fixpoint assign (l : list A) (i : nat) (x : A) : list A :=
  match l, i with
  | [], _ => []
  | _ :: l', O => x :: l'
  | y :: l', S i' => y :: assign l' i' x
  end.
End Arrays.

(** An object used as a dictionary from strings, in insertion order. *)
Definition Obj (V : Type) : Type := list (string * V).

Section Objects.
Context {V : Type}.

(** [o[k]]; [None] is [undefined]. *)
Fixpoint get (o : Obj V) (k : string) : option V :=
  match o with
  | [] => None
  | (k', v) :: o' => if (k' =? k)%string then Some v else get o' k
  end.

(** [o[k] = v]: overwrites in place, or adds the property last. *)
Fixpoint set (o : Obj V) (k : string) (v : V) : Obj V :=
  match o with
  | [] => [(k, v)]
  | (k', v') :: o' =>
      if (k' =? k)%string then (k', v) :: o' else (k', v') :: set o' k v
  end.

Definition keys (o : Obj V) : list string := map fst o.
Definition values (o : Obj V) : list V := map snd o.
End Objects.

(** [new Set(iterable)] followed by its iteration: the distinct elements in
    order of first occurrence. *)
Definition mem (x : string) (s : list string) : bool :=
  existsb (String.eqb x) s.

Definition newSet (l : list string) : list string :=
  fold_left (fun s x => if mem x s then s else s ++ [x]) l [].

(** [String(n)] for an integer. *)
Definition toString (n : Z) : string := NilZero.string_of_int (Z.to_int n).

(** [s.padStart(2, '0')] *)
Definition padStart2 (s : string) : string :=
  match s with
  | EmptyString => "00"
  | String c EmptyString => String "0"%char s
  | _ => s
  end.

(** [a.localeCompare(b)] on month keys, which are made of digits and
    hyphens: the collation order of these characters is their code order. *)
Definition localeCompare (a b : string) : Z :=
  match String.compare a b with
  | Lt => -1
  | Eq => 0
  | Gt => 1
  end.

(** The result of [Math.round((a / b) * 100)]. *)
Inductive number : Type :=
| Finite (n : Z)
| NaN
| Infinity
| NegInfinity.

(** [Math.round] rounds half up, so on the exact quotient the value is
    [floor (100a/b + 1/2)], and the division by zero yields [NaN] or an
    infinity. The code rounds the product of doubles [(a / b) * 100], which
    can lie just below a tie that the exact value reaches. *)
Definition roundPercent (a b : Z) : number :=
  if b =? 0 then
    if a =? 0 then NaN else if 0 <? a then Infinity else NegInfinity
  else Finite ((200 * a + b) / (2 * b)).

Definition isFinite (x : number) : bool :=
  match x with Finite _ => true | _ => false end.

(** The comparison of [Array.prototype.sort()] without a comparator, on
    strings: the order of their code units. *)
Definition compareStrings (a b : string) : Z :=
  match String.compare a b with
  | Lt => -1
  | Eq => 0
  | Gt => 1
  end.

(** [arr.slice(0, end)] for an integer [end]; a negative [end] counts from
    the end of the array. *)
Definition slice0 {A : Type} (l : list A) (end_ : Z) : list A :=
  if end_ <? 0 then firstn (Z.to_nat (Z.of_nat (List.length l) + end_)) l
  else firstn (Z.to_nat end_) l.

End Js.

(** ** Data model *)

Module Transaction.
(** A stored transaction; [date] and [category] may be absent. *)
Record t : Type := mk {
  id : string;
  amount : Z;
  date : option string;
  description : string;
  category : option string;
  createdAt : string;
  updatedAt : string
}.

(** [Partial<Transaction>]: the own properties of the patch object. *)
Record partial : Type := mkPartial {
  p_id : option string;
  p_amount : option Z;
  p_date : option (option string);
  p_description : option string;
  p_category : option (option string);
  p_createdAt : option string;
  p_updatedAt : option string
}.

(** [Omit<Transaction, 'id' | 'createdAt' | 'updatedAt'>] *)
Record draft : Type := mkDraft {
  d_amount : Z;
  d_date : option string;
  d_description : string;
  d_category : option string
}.
End Transaction.

Module Budget.
Record t : Type := mk {
  id : string;
  month : string;
  category : string;
  amount : Z;
  createdAt : string;
  updatedAt : string
}.

(** [Omit<Budget, 'id' | 'createdAt' | 'updatedAt'>] *)
Record draft : Type := mkDraft {
  d_month : string;
  d_category : string;
  d_amount : Z
}.
End Budget.

Module MonthlyTotal.
Record t : Type := mk { name : string; total : Z; key : string }.
End MonthlyTotal.

Module CategoryTotal.
Record t : Type := mk { name : string; value : Z }.
End CategoryTotal.

Module Comparison.
Record t : Type := mk {
  category : string;
  budgeted : Z;
  actual : Z;
  difference : Z
}.
End Comparison.

Module Stats.
Record t : Type := mk {
  totalTransactions : nat;
  income : Z;
  expenses : Z;
  balance : Z
}.
End Stats.

Module Insight.
Inductive severity : Type := warning | success | info.

(** The template literal of an insight, with the values it interpolates
    ([formatCurrency] is applied to the amounts when the text is shown). *)
Inductive message : Type :=
| SpentMoreThanBudget (more : Z) (percentSpent : Js.number)
| UnderBudgetBy (under : Z) (percentSpent : Js.number)
| OverBudgetIn (category : string) (overage : Z) (percentOver : Js.number)
| SavedIn (savings : Z) (category : string) (percentSaved : Js.number)
| TopSpending (category : string) (actual : Z) (percentOfTotal : Js.number)
| NothingSpentIn (count : nat).

Record t : Type := mk { text : message; type : severity }.

(** The percentage an insight prints, if it prints one. *)
Definition percentage (i : t) : option Js.number :=
  match text i with
  | SpentMoreThanBudget _ p | UnderBudgetBy _ p | OverBudgetIn _ _ p
  | SavedIn _ _ p | TopSpending _ _ p => Some p
  | NothingSpentIn _ => None
  end.
End Insight.

(** ** The date environment

    The code reads two things from a [Date]: whether it is valid, and the
    calendar month it falls in, in local time. A valid date is therefore
    represented by its [getFullYear()] and [getMonth()]. The engine reads a
    date string [YYYY-MM-DD] as midnight UTC of that day, so where local
    time is behind UTC the first day of a month falls in the month before;
    which month a string falls in is up to the environment. *)

Record CalendarMonth : Type := mkMonth { fullYear : Z; monthIndex : Z }.

Definition sameMonth (a b : CalendarMonth) : bool :=
  (fullYear a =? fullYear b) && (monthIndex a =? monthIndex b).

Class DateEnv : Type := {
  (** [new Date(s)]; [None] is [Invalid Date]. *)
  newDate : string -> option CalendarMonth;
  (** date-fns [format(d, 'MMM yyyy')] *)
  formatMonth : CalendarMonth -> string;
  (** The month that [startOfMonth] and [endOfMonth] of
      [new Date(year, month - 1)] delimit, for
      [[year, month] = monthYear.split('-').map(Number)]; [None] when that
      date is invalid. An instant lies between the two bounds exactly when
      its local calendar month is this one. *)
  monthOfKey : string -> option CalendarMonth
}.

(** ** lib/utils.js *)

(** [x || 0] on a number or [undefined] *)
Definition orZero (x : option Z) : Z :=
  match x with
  | Some v => if v =? 0 then 0 else v
  | None => 0
  end.

(** [transaction.category || 'Other'] *)
Definition categoryOrOther (transaction : Transaction.t) : string :=
  match Transaction.category transaction with
  | Some c => if (c =? "")%string then "Other" else c
  | None => "Other"
  end.

(** The body of [expenses.forEach] in [calculateCategoryTotals] and in
    [calculateMonthlyExpensesByCategory]. *)
Definition addExpense (categoryTotals : Js.Obj Z) (transaction : Transaction.t)
  : Js.Obj Z :=
  let category := categoryOrOther transaction in
  Js.set categoryTotals category
    (orZero (Js.get categoryTotals category)
     + Z.abs (Transaction.amount transaction)).

Definition isExpense (t : Transaction.t) : bool := Transaction.amount t <? 0.

Definition calculateCategoryTotals (transactions : list Transaction.t)
  : list CategoryTotal.t :=
  if Js.isEmpty transactions then []
  else
    let expenses := filter isExpense transactions in
    let categoryTotals := fold_left addExpense expenses [] in
    map (fun '(name, value) => CategoryTotal.mk name value) categoryTotals.

Section Utils.
Context `{DateEnv}.

(** [`${date.getFullYear()}-${String(date.getMonth() + 1).padStart(2, '0')}`] *)
Definition monthKeyOf (date : CalendarMonth) : string :=
  (Js.toString (fullYear date) ++ "-"
   ++ Js.padStart2 (Js.toString (monthIndex date + 1)))%string.

(** The body of [transactions.forEach] in [groupTransactionsByMonth]. *)
Definition groupStep (grouped : Js.Obj MonthlyTotal.t)
    (transaction : Transaction.t) : Js.Obj MonthlyTotal.t :=
  match Transaction.date transaction with
  | None => grouped
  | Some s =>
      if (s =? "")%string then grouped
      else
        match newDate s with
        | None => grouped
        | Some date =>
            let monthKey := monthKeyOf date in
            let monthName := formatMonth date in
            let grouped :=
              match Js.get grouped monthKey with
              | None =>
                  Js.set grouped monthKey
                    (MonthlyTotal.mk monthName 0 monthKey)
              | Some _ => grouped
              end in
            match Js.get grouped monthKey with
            | Some g =>
                Js.set grouped monthKey
                  (MonthlyTotal.mk (MonthlyTotal.name g)
                     (MonthlyTotal.total g + Transaction.amount transaction)
                     (MonthlyTotal.key g))
            | None => grouped
            end
        end
  end.

Definition groupTransactionsByMonth (transactions : list Transaction.t)
  : list MonthlyTotal.t :=
  if Js.isEmpty transactions then []
  else
    let grouped := fold_left groupStep transactions [] in
    Js.sort
      (fun a b => Js.localeCompare (MonthlyTotal.key a) (MonthlyTotal.key b))
      (Js.values grouped).

(** [transactionDate >= startDate && transactionDate <= endDate]; a
    comparison with an invalid date is false. *)
Definition inMonth (monthYear : string) (t : Transaction.t) : bool :=
  match Transaction.date t with
  | None => false
  | Some s =>
      match newDate s, monthOfKey monthYear with
      | Some transactionDate, Some m => sameMonth transactionDate m
      | _, _ => false
      end
  end.

Definition getTransactionsForMonth (transactions : list Transaction.t)
    (monthYear : string) : list Transaction.t :=
  if Js.isEmpty transactions || (monthYear =? "")%string then []
  else filter (inMonth monthYear) transactions.

Definition calculateMonthlyExpensesByCategory
    (transactions : list Transaction.t) (monthYear : string) : Js.Obj Z :=
  if Js.isEmpty transactions || (monthYear =? "")%string then []
  else
    let monthlyTransactions :=
      getTransactionsForMonth transactions monthYear in
    let expenses := filter isExpense monthlyTransactions in
    fold_left addExpense expenses [].

Definition compareBudgetWithActual (transactions : list Transaction.t)
    (budgets : list Budget.t) (monthYear : string) : list Comparison.t :=
  if (monthYear =? "")%string then []
  else
    let actualByCategory :=
      calculateMonthlyExpensesByCategory transactions monthYear in
    let monthBudgets :=
      filter (fun budget => (Budget.month budget =? monthYear)%string)
        budgets in
    let allCategories :=
      Js.newSet
        (Js.keys actualByCategory ++ map Budget.category monthBudgets) in
    map
      (fun category =>
         let budget :=
           find (fun b => (Budget.category b =? category)%string)
             monthBudgets in
         let budgeted :=
           match budget with Some b => Budget.amount b | None => 0 end in
         let actual := orZero (Js.get actualByCategory category) in
         Comparison.mk category budgeted actual (budgeted - actual))
      allCategories.
End Utils.

(** The two sort keys of [generateInsights]. *)
Definition overage (item : Comparison.t) : Z :=
  Comparison.actual item - Comparison.budgeted item.

Definition savings (item : Comparison.t) : Z :=
  Comparison.budgeted item - Comparison.actual item.

Definition isOverBudget (item : Comparison.t) : bool :=
  (0 <? Comparison.budgeted item)
  && (Comparison.budgeted item <? Comparison.actual item).

Definition isUnderBudget (item : Comparison.t) : bool :=
  (0 <? Comparison.budgeted item)
  && (Comparison.actual item <? Comparison.budgeted item).

Definition isUnused (item : Comparison.t) : bool :=
  (0 <? Comparison.budgeted item) && (Comparison.actual item =? 0).

Definition totalBudgeted (budgetComparison : list Comparison.t) : Z :=
  fold_left (fun sum item => sum + Comparison.budgeted item) budgetComparison 0.

Definition totalActual (budgetComparison : list Comparison.t) : Z :=
  fold_left (fun sum item => sum + Comparison.actual item) budgetComparison 0.

Definition overallInsight (budgetComparison : list Comparison.t)
  : list Insight.t :=
  let totalBudgeted := totalBudgeted budgetComparison in
  let totalActual := totalActual budgetComparison in
  if 0 <? totalBudgeted then
    let percentSpent := Js.roundPercent totalActual totalBudgeted in
    if totalBudgeted <? totalActual then
      [Insight.mk
         (Insight.SpentMoreThanBudget (totalActual - totalBudgeted)
            percentSpent)
         Insight.warning]
    else
      [Insight.mk
         (Insight.UnderBudgetBy (totalBudgeted - totalActual) percentSpent)
         Insight.success]
  else [].

Definition overBudgetInsight (budgetComparison : list Comparison.t)
  : list Insight.t :=
  let overBudgetItems :=
    Js.sort (fun a b => overage b - overage a)
      (filter isOverBudget budgetComparison) in
  match overBudgetItems with
  | worstCategory :: _ =>
      let overage := overage worstCategory in
      let percentOver :=
        Js.roundPercent overage (Comparison.budgeted worstCategory) in
      [Insight.mk
         (Insight.OverBudgetIn (Comparison.category worstCategory) overage
            percentOver)
         Insight.warning]
  | [] => []
  end.

Definition underBudgetInsight (budgetComparison : list Comparison.t)
  : list Insight.t :=
  let underBudgetItems :=
    Js.sort (fun a b => savings b - savings a)
      (filter isUnderBudget budgetComparison) in
  match underBudgetItems with
  | bestCategory :: _ =>
      let savings := savings bestCategory in
      let percentSaved :=
        Js.roundPercent savings (Comparison.budgeted bestCategory) in
      [Insight.mk
         (Insight.SavedIn savings (Comparison.category bestCategory)
            percentSaved)
         Insight.success]
  | [] => []
  end.

(** [budgetComparison.sort(...)] sorts the argument itself: [sorted] is the
    array the caller passed, after the call. *)
Definition topSpendingInsight (sorted : list Comparison.t) (totalActual : Z)
  : list Insight.t :=
  match sorted with
  | topSpendingCategory :: _ =>
      if 0 <? Comparison.actual topSpendingCategory then
        let percentOfTotal :=
          Js.roundPercent (Comparison.actual topSpendingCategory)
            totalActual in
        [Insight.mk
           (Insight.TopSpending (Comparison.category topSpendingCategory)
              (Comparison.actual topSpendingCategory) percentOfTotal)
           Insight.info]
      else []
  | [] => []
  end.

Definition unusedInsight (budgetComparison : list Comparison.t)
  : list Insight.t :=
  let zeroSpendingWithBudget := filter isUnused budgetComparison in
  if (0 <? List.length zeroSpendingWithBudget)%nat then
    [Insight.mk (Insight.NothingSpentIn (List.length zeroSpendingWithBudget))
       Insight.info]
  else [].

(** [generateInsights budgetComparison stats] returns the insights and the
    contents of the array [budgetComparison] when the call returns. *)
Definition generateInsights (budgetComparison : list Comparison.t)
    (stats : Stats.t) : list Insight.t * list Comparison.t :=
  if Js.isEmpty budgetComparison then ([], budgetComparison)
  else
    let total := totalActual budgetComparison in
    let insights1 := overallInsight budgetComparison in
    let insights2 := overBudgetInsight budgetComparison in
    let insights3 := underBudgetInsight budgetComparison in
    let budgetComparison :=
      Js.sort (fun a b => Comparison.actual b - Comparison.actual a)
        budgetComparison in
    let insights4 := topSpendingInsight budgetComparison total in
    let insights5 := unusedInsight budgetComparison in
    (insights1 ++ insights2 ++ insights3 ++ insights4 ++ insights5,
     budgetComparison).

(** ** lib/transactionContext.js *)

(** What a promise settles to. *)
Inductive settled (A : Type) : Type :=
| Resolved (value : A)
| Rejected (message : string).
Arguments Resolved {A} value.
Arguments Rejected {A} message.

(** [{ ...transaction, ...updatedData, updatedAt: timestamp }] *)
Definition mergePatch (transaction : Transaction.t)
    (updatedData : Transaction.partial) (timestamp : string) : Transaction.t :=
  let pick {X} (patch : option X) (old : X) : X :=
    match patch with Some v => v | None => old end in
  Transaction.mk
    (pick (Transaction.p_id updatedData) (Transaction.id transaction))
    (pick (Transaction.p_amount updatedData) (Transaction.amount transaction))
    (pick (Transaction.p_date updatedData) (Transaction.date transaction))
    (pick (Transaction.p_description updatedData)
       (Transaction.description transaction))
    (pick (Transaction.p_category updatedData)
       (Transaction.category transaction))
    (pick (Transaction.p_createdAt updatedData)
       (Transaction.createdAt transaction))
    timestamp.

Definition hasId (id : string) (t : Transaction.t) : bool :=
  (Transaction.id t =? id)%string.

(** The updater of [updateTransaction(id, updatedData)], run on the current
    list [prev] at time [timestamp]; a resolved [None] is [null]. *)
Definition updateTransaction (id : string)
    (updatedData : Transaction.partial) (timestamp : string)
    (prev : list Transaction.t)
  : list Transaction.t * settled (option Transaction.t) :=
  match find (hasId id) prev with
  | None => (prev, Rejected ("Transaction with ID " ++ id ++ " not found"))
  | Some _ =>
      let updatedTransactions :=
        map
          (fun transaction =>
             if hasId id transaction
             then mergePatch transaction updatedData timestamp
             else transaction)
          prev in
      (updatedTransactions, Resolved (find (hasId id) updatedTransactions))
  end.

Definition deleteTransaction (id : string) (prev : list Transaction.t)
  : list Transaction.t * settled bool :=
  let existingIndex := Js.findIndex (hasId id) prev in
  let exists_ := negb (existingIndex =? -1) in
  if negb exists_ then (prev, Resolved false)
  else
    let updatedTransactions :=
      filter (fun transaction => negb (hasId id transaction)) prev in
    (updatedTransactions, Resolved true).

Definition getStats (transactions : list Transaction.t) : Stats.t :=
  let income :=
    fold_left (fun sum t => sum + Transaction.amount t)
      (filter (fun t => 0 <? Transaction.amount t) transactions) 0 in
  let expenses :=
    fold_left (fun sum t => sum + Z.abs (Transaction.amount t))
      (filter (fun t => Transaction.amount t <? 0) transactions) 0 in
  let balance := income - expenses in
  Stats.mk (List.length transactions) income expenses balance.

(** ** lib/budgetContext.js *)

Definition samePair (budget : Budget.draft) (b : Budget.t) : bool :=
  (Budget.category b =? Budget.d_category budget)%string
  && (Budget.month b =? Budget.d_month budget)%string.

(** [{ ...b, amount: budget.amount, updatedAt: timestamp }] *)
Definition withAmount (b : Budget.t) (amount : Z) (timestamp : string)
  : Budget.t :=
  Budget.mk (Budget.id b) (Budget.month b) (Budget.category b) amount
    (Budget.createdAt b) timestamp.

(** [addOrUpdateBudget(budget)] as created by a render that saw the list
    [budgets], run at time [timestamp] with [newId] the id that the
    generator produces, on the current list [prev]. The index is searched in
    [budgets] and written in [prev]; the two lists are the same one unless
    the state changed since that render. The result is [None] when the index
    found in [budgets] is not an index of [prev]: the write would then leave
    an array that is not a list of budgets. *)
Definition addOrUpdateBudget (budgets : list Budget.t) (budget : Budget.draft)
    (timestamp newId : string) (prev : list Budget.t)
  : option (list Budget.t * settled Budget.t) :=
  let existingBudgetIndex := Js.findIndex (samePair budget) budgets in
  if 0 <=? existingBudgetIndex then
    match Js.at_ prev existingBudgetIndex,
          Js.at_ budgets existingBudgetIndex with
    | Some old, Some seen =>
        let updatedBudgets :=
          Js.assign prev (Z.to_nat existingBudgetIndex)
            (withAmount old (Budget.d_amount budget) timestamp) in
        Some (updatedBudgets,
              Resolved (withAmount seen (Budget.d_amount budget) timestamp))
    | _, _ => None
    end
  else
    let newBudget :=
      Budget.mk newId (Budget.d_month budget) (Budget.d_category budget)
        (Budget.d_amount budget) timestamp timestamp in
    Some (prev ++ [newBudget], Resolved newBudget).

Definition deleteBudget (id : string) (prev : list Budget.t)
  : list Budget.t * settled bool :=
  let existingIndex :=
    Js.findIndex (fun b => (Budget.id b =? id)%string) prev in
  let exists_ := negb (existingIndex =? -1) in
  if negb exists_ then (prev, Resolved false)
  else
    let updatedBudgets :=
      filter (fun budget => negb (Budget.id budget =? id)%string) prev in
    (updatedBudgets, Resolved true).

(** The provider after a render: the callback closes over the list it
    renders, which is the list its updater receives. *)
Definition upsert (budgets : list Budget.t) (budget : Budget.draft)
    (timestamp newId : string) : option (list Budget.t * settled Budget.t) :=
  addOrUpdateBudget budgets budget timestamp newId budgets.

(** ** The rest of lib/utils.js, of the two providers, and the components
    that compute on their results *)

(** [new Date(s).getTime()]; [None] is [NaN]. *)
Class TimeEnv : Type := {
  getTime : string -> option Z
}.

Section MoreUtils.
Context `{DateEnv} `{TimeEnv}.

(** [new Date(t.date)] as an instant; a missing date gives an invalid one. *)
Definition timeOf (t : Transaction.t) : option Z :=
  match Transaction.date t with
  | None => None
  | Some s => getTime s
  end.

(** [(a, b) => new Date(b.date) - new Date(a.date)]; [sort] reads a [NaN]
    as [+0]. *)
Definition byDateDescending (a b : Transaction.t) : Z :=
  match timeOf b, timeOf a with
  | Some tb, Some ta => tb - ta
  | _, _ => 0
  end.

(** [getRecentTransactions(transactions, limit)]; the sort works on a copy. *)
Definition getRecentTransactions (transactions : list Transaction.t)
    (limit : Z) : list Transaction.t :=
  if Js.isEmpty transactions then []
  else Js.slice0 (Js.sort byDateDescending transactions) limit.

(** The body of [transactions.forEach] in [getAvailableMonths]; [months] is
    the Set. *)
Definition addMonth (months : list string) (transaction : Transaction.t)
  : list string :=
  match Transaction.date transaction with
  | None => months
  | Some s =>
      if (s =? "")%string then months
      else
        match newDate s with
        | None => months
        | Some date =>
            let monthYear := monthKeyOf date in
            if Js.mem monthYear months then months else months ++ [monthYear]
        end
  end.

Definition getAvailableMonths (transactions : list Transaction.t)
  : list string :=
  if Js.isEmpty transactions then []
  else
    let months := fold_left addMonth transactions [] in
    rev (Js.sort Js.compareStrings months).

End MoreUtils.

(** A bar of [BudgetComparisonChart]. *)
Module ChartRow.
Record t : Type := mk {
  category : string;
  Budgeted : Z;
  Actual : Z;
  overBudget : bool
}.
End ChartRow.

(** The transformation of [comparisonData] into [chartData] in
    [BudgetComparisonChart]. *)
Definition toChartData (comparisonData : list Comparison.t)
  : list ChartRow.t :=
  Js.sort (fun a b => ChartRow.Actual b - ChartRow.Actual a)
    (map
       (fun item =>
          ChartRow.mk (Comparison.category item) (Comparison.budgeted item)
            (Comparison.actual item)
            ((Comparison.budgeted item <? Comparison.actual item)
             && (0 <? Comparison.budgeted item)))
       (filter
          (fun item =>
             (0 <? Comparison.budgeted item) || (0 <? Comparison.actual item))
          comparisonData)).

(** [addTransaction(transaction)] run at time [timestamp], with [newId] the
    id that the generator produces, on the current list [prev]. *)
Definition addTransaction (transaction : Transaction.draft)
    (timestamp newId : string) (prev : list Transaction.t)
  : list Transaction.t * settled Transaction.t :=
  let newTransaction :=
    Transaction.mk newId (Transaction.d_amount transaction)
      (Transaction.d_date transaction)
      (Transaction.d_description transaction)
      (Transaction.d_category transaction) timestamp timestamp in
  (newTransaction :: prev, Resolved newTransaction).

Definition getBudgetsForMonth (budgets : list Budget.t) (month : string)
  : list Budget.t :=
  filter (fun budget => (Budget.month budget =? month)%string) budgets.

(** [[...new Set(months)].sort().reverse()] *)
Definition getBudgetMonths (budgets : list Budget.t) : list string :=
  let months := map Budget.month budgets in
  rev (Js.sort Js.compareStrings (Js.newSet months)).

(** ** components/transactions/TransactionList.jsx *)

(** The state [sortConfig]: the column of a header cell and 'asc' or
    'desc'. *)
Module SortConfig.
Inductive column : Type := amount | date | category | description.
Inductive order : Type := asc | desc.
Record t : Type := mk { key : column; direction : order }.

Definition sameColumn (a b : column) : bool :=
  match a, b with
  | amount, amount | date, date | category, category
  | description, description => true
  | _, _ => false
  end.
End SortConfig.

Definition requestSort (key : SortConfig.column) (sortConfig : SortConfig.t)
  : SortConfig.t :=
  let direction :=
    if SortConfig.sameColumn (SortConfig.key sortConfig) key
       && match SortConfig.direction sortConfig with
          | SortConfig.asc => true
          | SortConfig.desc => false
          end
    then SortConfig.desc else SortConfig.asc in
  SortConfig.mk key direction.

(** [a[key] < b[key]]: numbers by value, strings by code units; a
    comparison with [undefined] is false. *)
Definition lessThan (key : SortConfig.column) (a b : Transaction.t) : bool :=
  let strings (x y : option string) : bool :=
    match x, y with
    | Some s, Some s' => String.ltb s s'
    | _, _ => false
    end in
  match key with
  | SortConfig.amount => Transaction.amount a <? Transaction.amount b
  | SortConfig.date => strings (Transaction.date a) (Transaction.date b)
  | SortConfig.category =>
      strings (Transaction.category a) (Transaction.category b)
  | SortConfig.description =>
      String.ltb (Transaction.description a) (Transaction.description b)
  end.

Section TransactionList.
Context `{TimeEnv}.

(** The comparator of [getSortedTransactions]. *)
Definition compareRows (sortConfig : SortConfig.t) (a b : Transaction.t) : Z :=
  match SortConfig.key sortConfig with
  | SortConfig.date =>
      match SortConfig.direction sortConfig with
      | SortConfig.asc =>
          match timeOf a, timeOf b with
          | Some ta, Some tb => ta - tb
          | _, _ => 0
          end
      | SortConfig.desc =>
          match timeOf b, timeOf a with
          | Some tb, Some ta => tb - ta
          | _, _ => 0
          end
      end
  | key =>
      if lessThan key a b then
        match SortConfig.direction sortConfig with
        | SortConfig.asc => -1
        | SortConfig.desc => 1
        end
      else if lessThan key b a then
        match SortConfig.direction sortConfig with
        | SortConfig.asc => 1
        | SortConfig.desc => -1
        end
      else 0
  end.

(** [getSortedTransactions()]: the sort works on a copy of the list. *)
Definition getSortedTransactions (sortConfig : SortConfig.t)
    (transactions : list Transaction.t) : list Transaction.t :=
  if Js.isEmpty transactions then transactions
  else Js.sort (compareRows sortConfig) transactions.
End TransactionList.

(** ** The month selector of SpendingInsights and BudgetComparisonChart *)

(** [[...new Set([...budgetMonths, getCurrentMonth()])].sort().reverse()],
    with the value of [getCurrentMonth()] as an argument. *)
Definition availableMonths (budgets : list Budget.t) (currentMonth : string)
  : list string :=
  let budgetMonths := getBudgetMonths budgets in
  let uniqueMonths := Js.newSet (budgetMonths ++ [currentMonth]) in
  rev (Js.sort Js.compareStrings uniqueMonths).

(** ** Two environments for the examples

    Two JavaScript engines, one running in UTC and one five hours west of it
    (a fixed offset of -05:00), on the strings that the application stores:

    - date strings [YYYY-MM-DD] of ten characters with a year from 1000 on.
      The engine reads the string as midnight UTC of that day; a day number
      up to 31 that the month does not have counts on into the next month
      ("2025-02-30" is midnight UTC of 2 March 2025); month 00, a month
      above 12, day 00 and a day above 31 give an invalid date.  Every other
      string is outside these environments and is read as invalid here;
    - month keys made of decimal digits and hyphens, read as the code reads
      them: [split('-')], [Number] of the first two parts (the empty part is
      0, a missing second part is [undefined]), then [new Date(year, month
      - 1)] in local time, where a year from 0 to 99 counts from 1900 and a
      month outside 1 to 12 rolls over into the neighbouring years
      ("2025-13" is January 2026, "2025-00" is December 2024).  A key with
      another character is outside these environments and is read as no
      month here. *)

Module UtcIso.
Definition digit (c : ascii) : option Z :=
  let n := Z.of_nat (nat_of_ascii c) in
  if (48 <=? n) && (n <=? 57) then Some (n - 48) else None.

Definition number2 (a b : ascii) : option Z :=
  match digit a, digit b with
  | Some x, Some y => Some (10 * x + y)
  | _, _ => None
  end.

Definition isLeap (y : Z) : bool :=
  ((y mod 4 =? 0) && negb (y mod 100 =? 0)) || (y mod 400 =? 0).

Definition daysIn (y m : Z) : Z :=
  if m =? 2 then (if isLeap y then 29 else 28)
  else if (m =? 4) || (m =? 6) || (m =? 9) || (m =? 11) then 30
  else 31.

(** The year, the month (1 to 12) and the day (1 to 31) written in a date
    string. *)
Definition yearMonthDay (s : string) : option (Z * Z * Z) :=
  match s with
  | String a (String b (String c (String d
      (String "-" (String e (String f
      (String "-" (String g (String h EmptyString))))))))) =>
      match number2 a b, number2 c d, number2 e f, number2 g h with
      | Some hi, Some lo, Some m, Some day =>
          let y := 100 * hi + lo in
          if (1000 <=? y) && (1 <=? m) && (m <=? 12)
             && (1 <=? day) && (day <=? 31)
          then Some (y, m, day) else None
      | _, _, _, _ => None
      end
  | _ => None
  end.

(** The day that a date string designates, days beyond the end of the month
    counted on into the next month (December has 31 days, so the year stays). *)
Definition civil (s : string) : option (Z * Z * Z) :=
  match yearMonthDay s with
  | Some (y, m, day) =>
      if day <=? daysIn y m then Some (y, m, day)
      else Some (y, m + 1, day - daysIn y m)
  | None => None
  end.

(** [new Date(s)] in UTC: the calendar month of the instant. *)
Definition parseDate (s : string) : option CalendarMonth :=
  match civil s with
  | Some (y, m, _) => Some (mkMonth y (m - 1))
  | None => None
  end.

(** [s.split('-')]. *)
Fixpoint split (s : string) : list string :=
  match s with
  | EmptyString => [EmptyString]
  | String c rest =>
      if Ascii.eqb c "-" then EmptyString :: split rest
      else match split rest with
           | part :: parts => String c part :: parts
           | [] => [String c EmptyString]
           end
  end.

(** [Number(s)] on a string of decimal digits; the empty string is 0. *)
Fixpoint digits (s : string) (value : Z) : option Z :=
  match s with
  | EmptyString => Some value
  | String c rest =>
      match digit c with
      | Some d => digits rest (10 * value + d)
      | None => None
      end
  end.

Definition number (s : string) : option Z := digits s 0.

(** The last month whose first and last instants are both time values: a
    date object reaches up to 13 September 275760. *)
Definition lastMonth : Z := 275760 * 12 + 7.

(** [new Date(year, month - 1)] for the two numbers of a month key. *)
Definition parseMonthKey (s : string) : option CalendarMonth :=
  match split s with
  | y :: m :: _ =>
      match number y, number m with
      | Some year, Some month =>
          let year := if year <=? 99 then 1900 + year else year in
          let months := year * 12 + (month - 1) in
          if months <=? lastMonth
          then Some (mkMonth (months / 12) (months mod 12))
          else None
      | _, _ => None
      end
  | _ => None
  end.

Definition monthNames : list string :=
  ["Jan"; "Feb"; "Mar"; "Apr"; "May"; "Jun";
   "Jul"; "Aug"; "Sep"; "Oct"; "Nov"; "Dec"].

(** The token [yyyy] of date-fns: at least four digits. *)
Definition year4 (y : Z) : string :=
  let s := Js.toString y in
  match String.length s with
  | 0%nat => ("0000" ++ s)%string
  | 1%nat => ("000" ++ s)%string
  | 2%nat => ("00" ++ s)%string
  | 3%nat => ("0" ++ s)%string
  | _ => s
  end.

(** [format(date, 'MMM yyyy')]. *)
Definition format (d : CalendarMonth) : string :=
  (nth (Z.to_nat (monthIndex d)) monthNames "" ++ " "
   ++ year4 (fullYear d))%string.

(** The instant of a date string [YYYY-MM-DD] in UTC, in milliseconds since
    the epoch. *)
Definition daysFromCivil (y m d : Z) : Z :=
  let y' := if m <=? 2 then y - 1 else y in
  let era := y' / 400 in
  let yoe := y' - era * 400 in
  let doy := (153 * (if 2 <? m then m - 3 else m + 9) + 2) / 5 + d - 1 in
  let doe := yoe * 365 + yoe / 4 - yoe / 100 + doy in
  era * 146097 + doe - 719468.

Definition parseTime (s : string) : option Z :=
  match yearMonthDay s with
  | Some (y, m, day) => Some (daysFromCivil y m day * 86400000)
  | None => None
  end.
End UtcIso.

#[export] Instance utcIso : DateEnv := {|
  newDate := UtcIso.parseDate;
  formatMonth := UtcIso.format;
  monthOfKey := UtcIso.parseMonthKey
|}.

#[export] Instance utcIsoTime : TimeEnv := {|
  getTime := UtcIso.parseTime
|}.

(** Five hours west of UTC.  Midnight UTC of a day is seven in the evening
    of the day before, so [getFullYear] and [getMonth] of a date string give
    the month of the day before.  Month keys are built and compared in local
    time, and read as above. *)
Module UtcMinus5.
Definition parseDate (s : string) : option CalendarMonth :=
  match UtcIso.civil s with
  | Some (y, m, day) =>
      if day =? 1 then
        if m =? 1 then Some (mkMonth (y - 1) 11)
        else Some (mkMonth y (m - 2))
      else Some (mkMonth y (m - 1))
  | None => None
  end.
End UtcMinus5.

Definition utcMinus5 : DateEnv := {|
  newDate := UtcMinus5.parseDate;
  formatMonth := UtcIso.format;
  monthOfKey := UtcIso.parseMonthKey
|}.

(** ** Specification-level notions *)

(** The sum of a list of amounts. *)
Definition sumZ (l : list Z) : Z := fold_right Z.add 0 l.

(** The transactions of category [c], a missing category counting as
    "Other". *)
Definition ofCategory (c : string) (l : list Transaction.t)
  : list Transaction.t :=
  filter (fun t => (categoryOrOther t =? c)%string) l.

(** The sum of the absolute values of the amounts of [l]. *)
Definition spent (l : list Transaction.t) : Z :=
  sumZ (map (fun t => Z.abs (Transaction.amount t)) l).

(** The category that an expense is counted under: its own, and "Other"
    when it has none (no category, or the empty one). *)
Definition label (t : Transaction.t) : string :=
  match Transaction.category t with
  | Some (String c rest) => String c rest
  | Some EmptyString => "Other"
  | None => "Other"
  end.

(** The negative-amount transactions of [l] counted under [c]. *)
Definition expensesUnder (c : string) (l : list Transaction.t)
  : list Transaction.t :=
  filter (fun t => (Transaction.amount t <? 0) && (label t =? c)%string) l.

(** The amount of the first budget of [budgets] for month [m] and category
    [c], and 0 when there is none. *)
Definition budgetFor (m c : string) (budgets : list Budget.t) : Z :=
  match
    find (fun b => (Budget.month b =? m)%string
                   && (Budget.category b =? c)%string) budgets
  with
  | Some b => Budget.amount b
  | None => 0
  end.

(** At most one budget per (month, category) pair. *)
Definition pairOf (b : Budget.t) : string * string :=
  (Budget.month b, Budget.category b).

Definition onePerPair (budgets : list Budget.t) : Prop :=
  NoDup (map pairOf budgets).

(** The budgets of [budgets] for the pair of the draft [d]. *)
Definition budgetsFor (d : Budget.draft) (budgets : list Budget.t)
  : list Budget.t :=
  filter (samePair d) budgets.

(** The comparison rows by descending actual spending, as [sort] leaves
    them. *)
Definition sortedByActual (c : list Comparison.t) : list Comparison.t :=
  Js.sort (fun a b => Comparison.actual b - Comparison.actual a) c.

(** What each insight divides by. *)
Definition guarded (c : list Comparison.t) (i : Insight.t) : Prop :=
  match Insight.text i with
  | Insight.SpentMoreThanBudget _ p | Insight.UnderBudgetBy _ p =>
      0 < totalBudgeted c /\
      p = Js.roundPercent (totalActual c) (totalBudgeted c)
  | Insight.OverBudgetIn category amount p =>
      exists w, In w c /\ Comparison.category w = category /\
                0 < Comparison.budgeted w /\
                p = Js.roundPercent amount (Comparison.budgeted w)
  | Insight.SavedIn amount category p =>
      exists w, In w c /\ Comparison.category w = category /\
                0 < Comparison.budgeted w /\
                p = Js.roundPercent amount (Comparison.budgeted w)
  | Insight.TopSpending _ amount p =>
      0 < totalActual c /\ p = Js.roundPercent amount (totalActual c)
  | Insight.NothingSpentIn _ => True
  end.

(** The month key of [a] comes strictly before that of [b]. *)
Definition keyBefore (a b : MonthlyTotal.t) : Prop :=
  String.compare (MonthlyTotal.key a) (MonthlyTotal.key b) = Lt.

Section SpecUtils.
Context `{DateEnv}.

(** The expenses of month [m]: negative amount, dated within [m]. *)
Definition expensesIn (m : string) (l : list Transaction.t)
  : list Transaction.t :=
  filter (fun t => isExpense t && inMonth m t) l.

(** The month of a transaction whose date is present and parseable. *)
Definition datedMonth (t : Transaction.t) : option CalendarMonth :=
  match Transaction.date t with
  | None => None
  | Some s => if (s =? "")%string then None else newDate s
  end.

(** The transactions of [l] dated in the month of key [k]. *)
Definition hasKey (k : string) (t : Transaction.t) : bool :=
  match datedMonth t with
  | Some d => (monthKeyOf d =? k)%string
  | None => false
  end.

Definition datedIn (k : string) (l : list Transaction.t)
  : list Transaction.t :=
  filter (hasKey k) l.

(** What a bucket of key [k] must hold once the transactions [l] have
    been read: no bucket when none of them is dated in that month, else
    the key, the signed sum of their amounts, and the label of the month
    of one of them. *)
Definition bucketOf (l : list Transaction.t) (k : string)
    (bucket : option MonthlyTotal.t) : Prop :=
  match bucket with
  | None => datedIn k l = []
  | Some b =>
      MonthlyTotal.key b = k /\
      MonthlyTotal.total b = sumZ (map Transaction.amount (datedIn k l)) /\
      exists t d,
        In t l /\ datedMonth t = Some d /\ monthKeyOf d = k /\
        MonthlyTotal.name b = formatMonth d
  end.
End SpecUtils.

(** The rows of the examples. *)
Definition groceries : Transaction.t :=
  Transaction.mk "t1" (-50) (Some "2025-01-05") "market" (Some "Groceries")
    "c" "c".
Definition groceries' : Transaction.t :=
  Transaction.mk "t2" (-30) (Some "2025-01-10") "bakery" (Some "Groceries")
    "c" "c".
Definition salary : Transaction.t :=
  Transaction.mk "t3" 900 (Some "2025-02-01") "salary" None "c" "c".
Definition undated : Transaction.t :=
  Transaction.mk "t4" (-7) None "cash" None "c" "c".
Definition groceriesBudget : Budget.t :=
  Budget.mk "b1" "2025-01" "Groceries" 100 "c" "c".
Definition rentBudget : Budget.t :=
  Budget.mk "b2" "2025-01" "Rent" 700 "c" "c".
Definition lowerGroceriesBudget : Budget.t :=
  Budget.mk "b3" "2025-01" "Groceries" 40 "c" "c".

(** Two comparison rows: a budget left unused and a budget exceeded. *)
Definition rentRow : Comparison.t := Comparison.mk "Rent" 700 0 700.
Definition groceriesRow : Comparison.t :=
  Comparison.mk "Groceries" 100 120 (-20).
Definition noStats : Stats.t := Stats.mk 0 0 0 0.

Definition feast : Transaction.t :=
  Transaction.mk "t5" (-120) (Some "2025-01-20") "feast" (Some "Groceries")
    "c" "c".
Definition rentDraft : Budget.draft := Budget.mkDraft "2025-01" "Rent" 650.

(** A patch that only changes the amount, and one that also carries another
    id. *)
Definition newAmount : Transaction.partial :=
  Transaction.mkPartial None (Some (-60)) None None None None None.
Definition newIdentity : Transaction.partial :=
  Transaction.mkPartial (Some "t7") (Some (-60)) None None None None None.

(** An expense of the last day of January and one of the first day of
    February. *)
Definition rentPaid : Transaction.t :=
  Transaction.mk "t6" (-700) (Some "2025-01-31") "rent" (Some "Rent") "c" "c".
Definition lateFee : Transaction.t :=
  Transaction.mk "t7" (-50) (Some "2025-02-01") "late fee" (Some "Fees")
    "c" "c".

(** The budgets that two calls through one callback leave behind. *)
Definition firstRent : Budget.t :=
  Budget.mk "b8" "2025-01" "Rent" 650 "now" "now".
Definition secondRent : Budget.t :=
  Budget.mk "b9" "2025-01" "Rent" 650 "later" "later".

(** Every stored transaction has an id of its own. *)
Definition uniqueIds (transactions : list Transaction.t) : Prop :=
  NoDup (map Transaction.id transactions).

(** A draft for the examples. *)
Definition coffee : Transaction.draft :=
  Transaction.mkDraft (-4) (Some "2025-02-03") "coffee" (Some "Food").

(** Strings in strictly ascending, and in strictly descending, order. *)
Definition stringBefore (a b : string) : Prop := String.compare a b = Lt.
Definition stringAfter (a b : string) : Prop := String.compare b a = Lt.

(** The rank of an insight in the order in which [generateInsights] looks
    for them. *)
Definition rank (i : Insight.t) : Z :=
  match Insight.text i with
  | Insight.SpentMoreThanBudget _ _ | Insight.UnderBudgetBy _ _ => 1
  | Insight.OverBudgetIn _ _ _ => 2
  | Insight.SavedIn _ _ _ => 3
  | Insight.TopSpending _ _ _ => 4
  | Insight.NothingSpentIn _ => 5
  end.

(** The row [a] has spent at least as much as the row [b]. *)
Definition spentAtLeast (a b : Comparison.t) : Prop :=
  Comparison.actual b <= Comparison.actual a.

(** The bar [a] is at least as high as the bar [b]. *)
Definition barAtLeast (a b : ChartRow.t) : Prop :=
  ChartRow.Actual b <= ChartRow.Actual a.

(** The bar that [BudgetComparisonChart] draws for a row. *)
Definition barOf (r : Comparison.t) : ChartRow.t :=
  ChartRow.mk (Comparison.category r) (Comparison.budgeted r)
    (Comparison.actual r) (isOverBudget r).

Section SpecMore.
Context `{DateEnv} `{TimeEnv}.

(** The transaction has a date that is present and parseable. *)
Definition isDated (t : Transaction.t) : bool :=
  match datedMonth t with Some _ => true | None => false end.

(** Both transactions have a valid instant, and that of [a] is not before
    that of [b]. *)
Definition notOlder (a b : Transaction.t) : Prop :=
  match timeOf a, timeOf b with
  | Some ta, Some tb => tb <= ta
  | _, _ => False
  end.
End SpecMore.

(** The sort configuration that [TransactionList] starts with. *)
Definition initialSort : SortConfig.t :=
  SortConfig.mk SortConfig.date SortConfig.desc.

(** * Properties *)

(** ** Arrays *)

Lemma fold_left_sum {A : Type} (f : A -> Z) (l : list A) (a : Z) :
  fold_left (fun sum x => sum + f x) l a = a + sumZ (map f l).
Proof.
  revert a; induction l as [|x l IH]; intros a; simpl.
  - lia.
  - rewrite IH. lia.
Qed.

Lemma sumZ_nonneg (l : list Z) : (forall x, In x l -> 0 <= x) -> 0 <= sumZ l.
Proof.
  induction l as [|x l IH]; simpl; intros Hl; [lia|].
  assert (0 <= x) by (apply Hl; now left).
  assert (0 <= sumZ l) by (apply IH; intros y Hy; apply Hl; now right).
  lia.
Qed.

Lemma sumZ_elem_le (l : list Z) (x : Z) :
  (forall y, In y l -> 0 <= y) -> In x l -> x <= sumZ l.
Proof.
  induction l as [|y l IH]; simpl; intros Hl Hx; [easy|].
  assert (0 <= y) by (apply Hl; now left).
  assert (Hrest : forall z, In z l -> 0 <= z) by (intros z Hz; apply Hl; now right).
  pose proof (sumZ_nonneg l Hrest).
  destruct Hx as [->|Hx]; [lia|].
  specialize (IH Hrest Hx). lia.
Qed.

Lemma findIndex_lower {A : Type} (p : A -> bool) (l : list A) :
  -1 <= Js.findIndex p l.
Proof.
  induction l as [|x l IH]; simpl; [lia|].
  destruct (p x); [lia|].
  destruct (Js.findIndex p l <? 0) eqn:E; [lia|].
  apply Z.ltb_ge in E. lia.
Qed.

Lemma findIndex_none {A : Type} (p : A -> bool) (l : list A) :
  Js.findIndex p l = -1 <-> (forall x, In x l -> p x = false).
Proof.
  induction l as [|x l IH]; simpl.
  - split; [intros _ y []|reflexivity].
  - destruct (p x) eqn:Px.
    + split; [discriminate|].
      intros Hl. specialize (Hl x (or_introl eq_refl)). congruence.
    + pose proof (findIndex_lower p l) as Hlow.
      destruct (Js.findIndex p l <? 0) eqn:E.
      * apply Z.ltb_lt in E.
        assert (Hm : Js.findIndex p l = -1) by lia.
        split; [|reflexivity].
        intros _ y [<-|Hy]; [exact Px|]. now apply IH.
      * apply Z.ltb_ge in E. split; [lia|].
        intros Hl. exfalso.
        assert (Js.findIndex p l = -1)
          by (apply IH; intros y Hy; apply Hl; now right).
        lia.
Qed.

(** An index that [findIndex] returns is the first one that satisfies the
    predicate. *)
Lemma findIndex_some {A : Type} (p : A -> bool) (l : list A) :
  0 <= Js.findIndex p l ->
  exists x,
    nth_error l (Z.to_nat (Js.findIndex p l)) = Some x /\ p x = true /\
    find p l = Some x.
Proof.
  induction l as [|x l IH]; simpl; [lia|].
  destruct (p x) eqn:Px.
  - intros _. exists x. now rewrite Px.
  - destruct (Js.findIndex p l <? 0) eqn:E; [lia|].
    apply Z.ltb_ge in E. intros _.
    destruct (IH E) as (y & Hn & Hy & Hf).
    exists y. repeat split; trivial.
    replace (Z.to_nat (Js.findIndex p l + 1))
      with (S (Z.to_nat (Js.findIndex p l))) by lia.
    exact Hn.
Qed.

Lemma find_none_iff {A : Type} (p : A -> bool) (l : list A) :
  find p l = None <-> (forall x, In x l -> p x = false).
Proof.
  split; [apply find_none|].
  induction l as [|x l IH]; simpl; intros Hl; [reflexivity|].
  rewrite (Hl x (or_introl eq_refl)). apply IH.
  intros y Hy. apply Hl. now right.
Qed.

Lemma find_filter {A : Type} (p q : A -> bool) (l : list A) :
  find p (filter q l) = find (fun x => q x && p x) l.
Proof.
  induction l as [|x l IH]; simpl; [reflexivity|].
  destruct (q x); simpl; [|exact IH].
  destruct (p x); [reflexivity|exact IH].
Qed.

Lemma filter_none {A : Type} (p : A -> bool) (l : list A) :
  (forall x, In x l -> p x = false) -> filter p l = [].
Proof.
  induction l as [|x l IH]; simpl; intros Hl; [reflexivity|].
  rewrite (Hl x (or_introl eq_refl)). apply IH.
  intros y Hy. apply Hl. now right.
Qed.

Lemma assign_length {A : Type} (l : list A) (i : nat) (x : A) :
  List.length (Js.assign l i x) = List.length l.
Proof.
  revert i; induction l as [|y l IH]; intros [|i]; simpl; auto.
Qed.

Lemma assign_nth_same {A : Type} (l : list A) (i : nat) (x y : A) :
  nth_error l i = Some y -> nth_error (Js.assign l i x) i = Some x.
Proof.
  revert i; induction l as [|z l IH]; intros [|i]; simpl; try discriminate; auto.
Qed.

Lemma assign_nth_other {A : Type} (l : list A) (i j : nat) (x : A) :
  i <> j -> nth_error (Js.assign l i x) j = nth_error l j.
Proof.
  revert i j; induction l as [|z l IH]; intros [|i] [|j] Hij; simpl; auto.
  congruence.
Qed.

Lemma assign_map {A B : Type} (f : A -> B) (l : list A) (i : nat) (x y : A) :
  nth_error l i = Some y -> f x = f y ->
  map f (Js.assign l i x) = map f l.
Proof.
  revert i; induction l as [|z l IH]; intros [|i]; simpl; try discriminate.
  - intros [= ->] ->. reflexivity.
  - intros Hn Hf. f_equal. now apply IH.
Qed.

Lemma assign_In {A : Type} (l : list A) (i : nat) (x y : A) :
  nth_error l i = Some y -> In x (Js.assign l i x).
Proof.
  intros Hn. eapply nth_error_In. eapply assign_nth_same; eauto.
Qed.

(** ** Statistics *)

(** C6: [getStats] returns the sum of the positive amounts as income, the
    sum of the absolute values of the negative amounts as expenses, and
    their difference as balance; income and expenses are not negative. *)
Theorem getStats_income_expenses_balance (transactions : list Transaction.t) :
  let stats := getStats transactions in
  Stats.income stats
    = sumZ (filter (fun a => 0 <? a) (map Transaction.amount transactions)) /\
  Stats.expenses stats
    = sumZ (map Z.abs
              (filter (fun a => a <? 0) (map Transaction.amount transactions))) /\
  Stats.balance stats = Stats.income stats - Stats.expenses stats /\
  0 <= Stats.income stats /\
  0 <= Stats.expenses stats.
Proof.
  simpl. rewrite !fold_left_sum, !Z.add_0_l.
  assert (Hin : forall l : list Transaction.t,
    map Transaction.amount (filter (fun t => 0 <? Transaction.amount t) l)
    = filter (fun a => 0 <? a) (map Transaction.amount l)).
  { induction l as [|t l IH]; simpl; [reflexivity|].
    destruct (0 <? Transaction.amount t); simpl; now rewrite IH. }
  assert (Hex : forall l : list Transaction.t,
    map (fun t => Z.abs (Transaction.amount t))
      (filter (fun t => Transaction.amount t <? 0) l)
    = map Z.abs (filter (fun a => a <? 0) (map Transaction.amount l))).
  { induction l as [|t l IH]; simpl; [reflexivity|].
    destruct (Transaction.amount t <? 0); simpl; now rewrite IH. }
  rewrite Hin, Hex. repeat split.
  - apply sumZ_nonneg. intros x Hx. apply filter_In in Hx.
    destruct Hx as [_ Hx]. apply Z.ltb_lt in Hx. lia.
  - apply sumZ_nonneg. intros x Hx. apply in_map_iff in Hx.
    destruct Hx as (y & <- & _). apply Z.abs_nonneg.
Qed.

(** ** Deletion *)


Lemma filter_negb_shorter {A : Type} (p : A -> bool) (l : list A) (x : A) :
  In x l -> p x = true ->
  (List.length (filter (fun y => negb (p y)) l) < List.length l)%nat.
Proof.
  induction l as [|y l IH]; simpl; intros Hx Px; [easy|].
  pose proof (filter_length_le (fun y => negb (p y)) l) as Hle.
  destruct Hx as [->|Hx].
  - rewrite Px; simpl. lia.
  - specialize (IH Hx Px). destruct (negb (p y)); simpl; lia.
Qed.

Lemma findIndex_found {A : Type} (p : A -> bool) (l : list A) (x : A) :
  In x l -> p x = true -> (Js.findIndex p l =? -1) = false.
Proof.
  intros Hx Px. apply Z.eqb_neq. intros Hm.
  rewrite findIndex_none in Hm. specialize (Hm x Hx). congruence.
Qed.

(** C9: deleting an id that matches no stored element resolves [false] and
    returns the very same list; deleting an id that is present resolves
    [true] and returns the list without the elements of that id, the others
    kept in order. This holds for [deleteTransaction] and [deleteBudget]. *)
Theorem delete_absent_false_present_true (id : string)
    (transactions : list Transaction.t) (budgets : list Budget.t) :
  ((forall t, In t transactions -> Transaction.id t <> id) ->
   deleteTransaction id transactions = (transactions, Resolved false)) /\
  ((exists t, In t transactions /\ Transaction.id t = id) ->
   exists next,
     deleteTransaction id transactions = (next, Resolved true) /\
     next = filter (fun t => negb (Transaction.id t =? id)%string) transactions /\
     (forall t, In t next <-> In t transactions /\ Transaction.id t <> id) /\
     (List.length next < List.length transactions)%nat) /\
  ((forall b, In b budgets -> Budget.id b <> id) ->
   deleteBudget id budgets = (budgets, Resolved false)) /\
  ((exists b, In b budgets /\ Budget.id b = id) ->
   exists next,
     deleteBudget id budgets = (next, Resolved true) /\
     next = filter (fun b => negb (Budget.id b =? id)%string) budgets /\
     (forall b, In b next <-> In b budgets /\ Budget.id b <> id) /\
     (List.length next < List.length budgets)%nat).
Proof.
  repeat split.
  - intros Habs. unfold deleteTransaction.
    assert (Hm : Js.findIndex (hasId id) transactions = -1).
    { apply findIndex_none. intros t Ht. apply String.eqb_neq. now apply Habs. }
    rewrite Hm. reflexivity.
  - intros (t & Ht & Hid). unfold deleteTransaction.
    assert (Pt : hasId id t = true) by (now apply String.eqb_eq).
    rewrite (findIndex_found _ _ _ Ht Pt); simpl.
    eexists; split; [reflexivity|]. split; [reflexivity|]. split.
    + intros u. rewrite filter_In. unfold hasId.
      rewrite negb_true_iff, String.eqb_neq. tauto.
    + exact (filter_negb_shorter (hasId id) _ _ Ht Pt).
  - intros Habs. unfold deleteBudget.
    set (p := fun b => (Budget.id b =? id)%string).
    assert (Hm : Js.findIndex p budgets = -1).
    { apply findIndex_none. intros b Hb. apply String.eqb_neq. now apply Habs. }
    rewrite Hm. reflexivity.
  - intros (b & Hb & Hid). unfold deleteBudget.
    set (p := fun b => (Budget.id b =? id)%string).
    assert (Pb : p b = true) by (now apply String.eqb_eq).
    rewrite (findIndex_found _ _ _ Hb Pb); simpl.
    eexists; split; [reflexivity|]. split; [reflexivity|]. split.
    + intros u. rewrite filter_In.
      rewrite negb_true_iff, String.eqb_neq. tauto.
    + exact (filter_negb_shorter p _ _ Hb Pb).
Qed.

Lemma delete_absent_false_present_true_witness :
  deleteTransaction "t9" [groceries; salary]
    = ([groceries; salary], Resolved false) /\
  (exists next, deleteTransaction "t1" [groceries; salary]
                = (next, Resolved true) /\ next = [salary]) /\
  deleteBudget "b9" [groceriesBudget; rentBudget]
    = ([groceriesBudget; rentBudget], Resolved false) /\
  (exists next, deleteBudget "b1" [groceriesBudget; rentBudget]
                = (next, Resolved true) /\ next = [rentBudget]).
Proof.
  destruct (delete_absent_false_present_true "t9" [groceries; salary]
              [groceriesBudget; rentBudget]) as (Ht & _ & _ & _).
  destruct (delete_absent_false_present_true "t1" [groceries; salary]
              [groceriesBudget; rentBudget]) as (_ & Ht' & _ & _).
  destruct (delete_absent_false_present_true "b9" [groceries; salary]
              [groceriesBudget; rentBudget]) as (_ & _ & Hb & _).
  destruct (delete_absent_false_present_true "b1" [groceries; salary]
              [groceriesBudget; rentBudget]) as (_ & _ & _ & Hb').
  split; [|split; [|split]].
  - apply Ht. intros t [<-|[<-|[]]]; discriminate.
  - destruct Ht' as (next & E & -> & _).
    + exists groceries. split; [now left|reflexivity].
    + eexists. split; [exact E|reflexivity].
  - apply Hb. intros b [<-|[<-|[]]]; discriminate.
  - destruct Hb' as (next & E & -> & _).
    + exists groceriesBudget. split; [now left|reflexivity].
    + eexists. split; [exact E|reflexivity].
Defined.

(** ** Update of a transaction *)

Lemma find_map_preserved {A : Type} (p : A -> bool) (f : A -> A) (l : list A) :
  (forall x, p (f x) = p x) -> find p (map f l) = option_map f (find p l).
Proof.
  intros Hp. induction l as [|x l IH]; simpl; [reflexivity|].
  rewrite Hp. destruct (p x); [reflexivity|exact IH].
Qed.

Lemma mergePatch_keeps_id (id : string) (patch : Transaction.partial)
    (ts : string) (t : Transaction.t) :
  Transaction.p_id patch = None \/ Transaction.p_id patch = Some id ->
  hasId id t = true -> hasId id (mergePatch t patch ts) = true.
Proof.
  unfold hasId, mergePatch; simpl. intros [->| ->] Ht; simpl.
  - exact Ht.
  - apply String.eqb_refl.
Qed.

(** The update in terms of [mergePatch], for any patch object that carries
    no other id: the call resolves with the merge of the first transaction
    of that id, and the new list is the old one with every transaction of
    that id merged. *)
Lemma updateTransaction_rejects_or_merges (id : string)
    (patch : Transaction.partial) (timestamp : string)
    (prev : list Transaction.t) :
  ((forall t, In t prev -> Transaction.id t <> id) ->
   updateTransaction id patch timestamp prev
   = (prev, Rejected ("Transaction with ID " ++ id ++ " not found"))) /\
  (forall t,
     find (hasId id) prev = Some t ->
     Transaction.p_id patch = None \/ Transaction.p_id patch = Some id ->
     exists next,
       updateTransaction id patch timestamp prev
       = (next, Resolved (Some (mergePatch t patch timestamp))) /\
       Transaction.updatedAt (mergePatch t patch timestamp) = timestamp /\
       List.length next = List.length prev /\
       (forall n u, nth_error prev n = Some u ->
          nth_error next n
          = Some (if hasId id u then mergePatch u patch timestamp else u))).
Proof.
  split.
  - intros Habs. unfold updateTransaction.
    assert (Hf : find (hasId id) prev = None).
    { apply find_none_iff. intros t Ht. apply String.eqb_neq. now apply Habs. }
    rewrite Hf. reflexivity.
  - intros t Hf Hid. unfold updateTransaction. rewrite Hf.
    set (f := fun transaction : Transaction.t =>
                if hasId id transaction
                then mergePatch transaction patch timestamp else transaction).
    assert (Hp : forall x, hasId id (f x) = hasId id x).
    { intros x. unfold f. destruct (hasId id x) eqn:Hx; [|exact Hx].
      now apply mergePatch_keeps_id. }
    rewrite (find_map_preserved _ _ _ Hp), Hf; simpl.
    apply find_some in Hf. destruct Hf as [_ Ht].
    exists (map f prev). unfold f at 2. rewrite Ht.
    repeat split.
    + apply length_map.
    + intros n u Hn. rewrite nth_error_map, Hn. reflexivity.
Qed.

Lemma updateTransaction_rejects_or_merges_witness :
  updateTransaction "t9" newAmount "now" [salary; groceries]
  = ([salary; groceries], Rejected "Transaction with ID t9 not found") /\
  exists next,
    updateTransaction "t1" newAmount "now" [salary; groceries]
    = (next, Resolved (Some (mergePatch groceries newAmount "now"))) /\
    nth_error next 0 = Some salary.
Proof.
  destruct (updateTransaction_rejects_or_merges "t9" newAmount "now"
              [salary; groceries]) as [Hrej _].
  destruct (updateTransaction_rejects_or_merges "t1" newAmount "now"
              [salary; groceries]) as [_ Hmerge].
  split.
  - apply Hrej. intros t [<-|[<-|[]]]; discriminate.
  - destruct (Hmerge groceries eq_refl (or_introl eq_refl))
      as (next & E & _ & _ & Hn).
    exists next. split; [exact E|]. exact (Hn 0%nat salary eq_refl).
Defined.

(** Outside the data model: a patch object that carries another id.  The
    stored transaction of id "t1" is rewritten under the id "t7", the search
    for "t1" in the new list finds nothing, and the call resolves with
    [null]. *)
Remark updateTransaction_new_id_resolves_null :
  In groceries [groceries] /\ Transaction.id groceries = "t1" /\
  snd (updateTransaction "t1" newIdentity "now" [groceries]) = Resolved None /\
  ~ (exists t,
       In t [groceries] /\ Transaction.id t = "t1" /\
       snd (updateTransaction "t1" newIdentity "now" [groceries])
       = Resolved (Some (mergePatch t newIdentity "now"))).
Proof.
  split; [now left|]. split; [reflexivity|]. split; [reflexivity|].
  intros (t & _ & _ & E). discriminate E.
Qed.

Lemma find_first {A : Type} (p : A -> bool) (l : list A) (x : A) :
  find p l = Some x ->
  exists k, nth_error l k = Some x /\ p x = true.
Proof.
  induction l as [|y l IH]; simpl; [discriminate|].
  destruct (p y) eqn:Py.
  - intros E. injection E as <-. exists 0%nat. split; [reflexivity|exact Py].
  - intros E. destruct (IH E) as (k & Hk & Px).
    exists (S k). split; [exact Hk|exact Px].
Qed.

Lemma uniqueIds_one_index (id : string) (prev : list Transaction.t)
    (k n : nat) (t u : Transaction.t) :
  uniqueIds prev ->
  nth_error prev k = Some t -> Transaction.id t = id ->
  nth_error prev n = Some u -> Transaction.id u = id -> n = k.
Proof.
  unfold uniqueIds. intros Hnd Hk Ht Hn Hu.
  rewrite NoDup_nth_error in Hnd. apply Hnd.
  - rewrite length_map. apply nth_error_Some. congruence.
  - rewrite !nth_error_map, Hk, Hn. simpl. congruence.
Qed.

(** C8: a patch holds any of the fields of a transaction; the id of a
    transaction is immutable, so a patch carries no id, or the id that the
    transaction has.  When no stored transaction has the id,
    [updateTransaction] rejects with the not-found error and returns the
    list it was given.  When one has it, the call
    resolves with a transaction [r] that stands in the new list where a
    transaction [t] of that id stood in the old one: [r] has the id and, for
    each field, the value of the patch when the patch has the field and the
    value of [t] otherwise, and its [updatedAt] is the timestamp.  The list
    keeps its length; every transaction of another id stays where and what
    it was; and on a list of pairwise distinct ids every other index holds
    what it held. *)
Theorem updateTransaction_not_found_or_merged (id : string)
    (carriesId : bool)
    (amount : option Z) (date : option (option string))
    (description : option string) (category : option (option string))
    (createdAt updatedAt : option string)
    (timestamp : string) (prev : list Transaction.t) :
  let patch :=
    Transaction.mkPartial (if carriesId then Some id else None)
      amount date description category createdAt updatedAt in
  ((forall t, In t prev -> Transaction.id t <> id) ->
   updateTransaction id patch timestamp prev
   = (prev, Rejected ("Transaction with ID " ++ id ++ " not found"))) /\
  ((exists t, In t prev /\ Transaction.id t = id) ->
   exists k t r next,
     nth_error prev k = Some t /\ Transaction.id t = id /\
     updateTransaction id patch timestamp prev = (next, Resolved (Some r)) /\
     nth_error next k = Some r /\
     Transaction.id r = id /\
     Transaction.amount r
     = match amount with Some v => v | None => Transaction.amount t end /\
     Transaction.date r
     = match date with Some v => v | None => Transaction.date t end /\
     Transaction.description r
     = match description with
       | Some v => v
       | None => Transaction.description t
       end /\
     Transaction.category r
     = match category with Some v => v | None => Transaction.category t end /\
     Transaction.createdAt r
     = match createdAt with
       | Some v => v
       | None => Transaction.createdAt t
       end /\
     Transaction.updatedAt r = timestamp /\
     List.length next = List.length prev /\
     (forall n u, nth_error prev n = Some u -> Transaction.id u <> id ->
        nth_error next n = Some u) /\
     (uniqueIds prev ->
      forall n, n <> k -> nth_error next n = nth_error prev n)).
Proof.
  intros patch. split.
  - intros Habs. unfold updateTransaction.
    assert (Hf : find (hasId id) prev = None).
    { apply find_none_iff. intros t Ht. apply String.eqb_neq. now apply Habs. }
    rewrite Hf. reflexivity.
  - intros (t0 & Hin0 & Hid0).
    destruct (find (hasId id) prev) as [t|] eqn:Hf.
    2:{ rewrite find_none_iff in Hf. specialize (Hf t0 Hin0).
        unfold hasId in Hf. apply String.eqb_neq in Hf. contradiction. }
    destruct (find_first _ _ _ Hf) as (k & Hk & Pt).
    assert (Hidt : Transaction.id t = id) by now apply String.eqb_eq.
    set (f := fun transaction : Transaction.t =>
                if hasId id transaction
                then mergePatch transaction patch timestamp else transaction).
    assert (Hp : forall x, hasId id (f x) = hasId id x).
    { intros x. unfold f. destruct (hasId id x) eqn:Hx; [|exact Hx].
      apply mergePatch_keeps_id; [|exact Hx].
      unfold patch. destruct carriesId; [now right|now left]. }
    assert (Hnth : forall n, nth_error (map f prev) n
                             = option_map f (nth_error prev n))
      by (intros n; apply nth_error_map).
    exists k, t, (mergePatch t patch timestamp), (map f prev).
    split; [exact Hk|]. split; [exact Hidt|]. split.
    { unfold updateTransaction. rewrite Hf. fold f.
      rewrite (find_map_preserved _ _ _ Hp), Hf. simpl.
      unfold f. rewrite Pt. reflexivity. }
    split. { rewrite Hnth, Hk. simpl. unfold f. now rewrite Pt. }
    split; [unfold patch; destruct carriesId; [reflexivity|exact Hidt]|].
    do 6 (split; [reflexivity|]).
    split; [apply length_map|]. split.
    + intros n u Hn Hu. rewrite Hnth, Hn. simpl. unfold f.
      assert (E : hasId id u = false) by now apply String.eqb_neq.
      now rewrite E.
    + intros Hnd n Hnk. rewrite Hnth.
      destruct (nth_error prev n) as [u|] eqn:Hn; simpl; trivial.
      unfold f. destruct (hasId id u) eqn:Hu; trivial.
      exfalso. apply Hnk.
      apply (uniqueIds_one_index id prev k n t u); trivial.
      now apply String.eqb_eq.
Qed.

Lemma updateTransaction_not_found_or_merged_witness :
  updateTransaction "t9" newAmount "now" [salary; groceries]
  = ([salary; groceries], Rejected "Transaction with ID t9 not found") /\
  exists r next,
    updateTransaction "t1" newAmount "now" [salary; groceries]
    = (next, Resolved (Some r)) /\
    Transaction.id r = "t1" /\
    Transaction.amount r = -60 /\
    Transaction.date r = Some "2025-01-05" /\
    Transaction.updatedAt r = "now" /\
    nth_error next 0 = Some salary.
Proof.
  destruct (updateTransaction_not_found_or_merged "t9" false
              (Some (-60)) None None None None None "now"
              [salary; groceries]) as [Hrej _].
  destruct (updateTransaction_not_found_or_merged "t1" false
              (Some (-60)) None None None None None "now"
              [salary; groceries]) as [_ Hmerge].
  split.
  - apply Hrej. intros t [<-|[<-|[]]]; discriminate.
  - destruct Hmerge
      as (k & t & r & next & Hk & Ht & E & _ & Hid & Ha & Hd & _ & _ & _
          & Hu & _ & Hother & _).
    { exists groceries. split; [right; now left|reflexivity]. }
    assert (Et : t = groceries).
    { destruct k as [|[|k]]; simpl in Hk.
      - injection Hk as <-. discriminate Ht.
      - now injection Hk as <-.
      - destruct k; discriminate Hk. }
    subst t. exists r, next.
    split; [exact E|]. split; [exact Hid|]. split; [exact Ha|].
    split; [exact Hd|]. split; [exact Hu|].
    apply (Hother 0%nat salary); [reflexivity|discriminate].
Defined.

(** ** Upsert of a budget *)

Lemma samePair_iff (d : Budget.draft) (b : Budget.t) :
  samePair d b = true <-> pairOf b = (Budget.d_month d, Budget.d_category d).
Proof.
  unfold samePair, pairOf. rewrite andb_true_iff, !String.eqb_eq.
  split; [intros [-> ->]; reflexivity|intros [= -> ->]; auto].
Qed.

Lemma withAmount_pair (b : Budget.t) (amount : Z) (ts : string) :
  pairOf (withAmount b amount ts) = pairOf b.
Proof. reflexivity. Qed.

Lemma onePerPair_unique (l : list Budget.t) (x y : Budget.t) :
  onePerPair l -> In x l -> In y l -> pairOf x = pairOf y -> x = y.
Proof.
  unfold onePerPair. induction l as [|z l IH]; simpl; [easy|].
  intros Hnd Hx Hy Hxy. inversion Hnd as [|? ? Hnotin Hnd']; subst.
  destruct Hx as [->|Hx], Hy as [->|Hy]; trivial.
  - exfalso. apply Hnotin. rewrite Hxy. now apply in_map.
  - exfalso. apply Hnotin. rewrite <- Hxy. now apply in_map.
  - now apply IH.
Qed.

Lemma budgetsFor_single (d : Budget.draft) (l : list Budget.t) (b : Budget.t) :
  onePerPair l -> In b l -> samePair d b = true -> budgetsFor d l = [b].
Proof.
  unfold onePerPair, budgetsFor.
  induction l as [|x l IH]; simpl; [easy|].
  intros Hnd Hb Pb. inversion Hnd as [|? ? Hnotin Hnd']; subst.
  destruct (samePair d x) eqn:Px.
  - assert (Hrest : filter (samePair d) l = []).
    { apply filter_none. intros y Hy. destruct (samePair d y) eqn:Py; trivial.
      exfalso. apply Hnotin. apply samePair_iff in Px, Py.
      rewrite Px, <- Py. now apply in_map. }
    rewrite Hrest. destruct Hb as [->|Hb]; [reflexivity|].
    exfalso. apply Hnotin. apply samePair_iff in Px, Pb.
    rewrite Px, <- Pb. now apply in_map.
  - destruct Hb as [->|Hb]; [congruence|]. now apply IH.
Qed.

Lemma upsert_existing (st : list Budget.t) (d : Budget.draft)
    (ts nid : string) (old : Budget.t) :
  onePerPair st -> In old st -> samePair d old = true ->
  exists i,
    nth_error st i = Some old /\
    upsert st d ts nid
    = Some (Js.assign st i (withAmount old (Budget.d_amount d) ts),
            Resolved (withAmount old (Budget.d_amount d) ts)).
Proof.
  intros Hinv Hin Pold. unfold upsert, addOrUpdateBudget.
  assert (Hfound : (Js.findIndex (samePair d) st =? -1) = false)
    by (eapply findIndex_found; eauto).
  apply Z.eqb_neq in Hfound.
  pose proof (findIndex_lower (samePair d) st) as Hlow.
  assert (Hge : 0 <= Js.findIndex (samePair d) st) by lia.
  destruct (findIndex_some _ _ Hge) as (x & Hn & Px & Hf).
  assert (x = old).
  { apply (onePerPair_unique st); trivial.
    - eapply nth_error_In; eauto.
    - apply samePair_iff in Px, Pold. congruence. }
  subst x. exists (Z.to_nat (Js.findIndex (samePair d) st)).
  split; [exact Hn|].
  apply Z.leb_le in Hge. rewrite Hge. unfold Js.at_.
  apply Z.leb_le in Hge.
  destruct (Js.findIndex (samePair d) st <? 0) eqn:E;
    [apply Z.ltb_lt in E; lia|].
  rewrite Hn. reflexivity.
Qed.

Lemma upsert_absent (st : list Budget.t) (d : Budget.draft) (ts nid : string) :
  (forall b, In b st -> samePair d b = false) ->
  upsert st d ts nid
  = Some (st ++ [Budget.mk nid (Budget.d_month d) (Budget.d_category d)
                   (Budget.d_amount d) ts ts],
          Resolved (Budget.mk nid (Budget.d_month d) (Budget.d_category d)
                      (Budget.d_amount d) ts ts)).
Proof.
  intros Habs. unfold upsert, addOrUpdateBudget.
  apply findIndex_none in Habs. rewrite Habs. reflexivity.
Qed.

Lemma onePerPair_assign (st : list Budget.t) (i : nat) (old : Budget.t)
    (amount : Z) (ts : string) :
  onePerPair st -> nth_error st i = Some old ->
  onePerPair (Js.assign st i (withAmount old amount ts)).
Proof.
  unfold onePerPair. intros Hinv Hn.
  now rewrite (assign_map pairOf st i _ old Hn (withAmount_pair old amount ts)).
Qed.

Lemma onePerPair_append (st : list Budget.t) (b : Budget.t) :
  onePerPair st -> (forall x, In x st -> pairOf x <> pairOf b) ->
  onePerPair (st ++ [b]).
Proof.
  unfold onePerPair. intros Hinv Hfresh. rewrite map_app; simpl.
  apply NoDup_app; trivial.
  - constructor; [intros []|constructor].
  - intros p Hp [<-|[]]. apply in_map_iff in Hp.
    destruct Hp as (x & Hx & Hin). now apply (Hfresh x).
Qed.

(** Calls made through the callback of the current render, which closes
    over the list that its updater receives ([upsert]).  On a list with at
    most one budget per (month, category) pair such a call returns a list
    with at most one budget per pair. When a budget of the pair exists, the
    list is the old one with that entry's amount and [updatedAt] replaced at
    its index: same length, same id and [createdAt], every other index as
    before. When none exists, the list is the old one followed by one new
    budget carrying the generated id. Making the same call again (after the
    next render) leaves exactly one budget for the pair, with the id it had
    after the first call, in a list of the same length. *)
Theorem addOrUpdateBudget_keeps_one_per_pair (st : list Budget.t)
    (d : Budget.draft) (ts nid ts' nid' : string) :
  onePerPair st ->
  exists st1 r1,
    upsert st d ts nid = Some (st1, Resolved r1) /\
    onePerPair st1 /\
    (forall old, In old st -> samePair d old = true ->
       exists i,
         nth_error st i = Some old /\
         r1 = withAmount old (Budget.d_amount d) ts /\
         st1 = Js.assign st i r1 /\
         nth_error st1 i = Some r1 /\
         (forall j, j <> i -> nth_error st1 j = nth_error st j) /\
         List.length st1 = List.length st /\
         Budget.id r1 = Budget.id old /\
         Budget.createdAt r1 = Budget.createdAt old /\
         Budget.amount r1 = Budget.d_amount d /\
         Budget.updatedAt r1 = ts) /\
    ((forall b, In b st -> samePair d b = false) ->
       st1 = st ++ [r1] /\
       r1 = Budget.mk nid (Budget.d_month d) (Budget.d_category d)
              (Budget.d_amount d) ts ts) /\
    exists st2 r2,
      upsert st1 d ts' nid' = Some (st2, Resolved r2) /\
      budgetsFor d st1 = [r1] /\
      budgetsFor d st2 = [r2] /\
      Budget.id r2 = Budget.id r1 /\
      List.length st2 = List.length st1 /\
      onePerPair st2.
Proof.
  intros Hinv.
  assert (Hcase :
    exists st1 r1,
      upsert st d ts nid = Some (st1, Resolved r1) /\ onePerPair st1 /\
      In r1 st1 /\ samePair d r1 = true).
  { destruct (find (samePair d) st) as [old|] eqn:Hf.
    - apply find_some in Hf. destruct Hf as [Hin Pold].
      destruct (upsert_existing st d ts nid old Hinv Hin Pold) as (i & Hn & E).
      do 2 eexists. split; [exact E|].
      split; [now apply onePerPair_assign|].
      split; [eapply assign_In; eauto|].
      apply samePair_iff. rewrite withAmount_pair. now apply samePair_iff.
    - rewrite find_none_iff in Hf. rewrite (upsert_absent st d ts nid Hf).
      do 2 eexists. split; [reflexivity|]. split; [|split].
      + apply onePerPair_append; trivial.
        intros x Hx Heq. specialize (Hf x Hx).
        assert (samePair d x = true) by (apply samePair_iff; now rewrite Heq).
        congruence.
      + apply in_or_app. right. now left.
      + unfold samePair; simpl. now rewrite !String.eqb_refl. }
  destruct Hcase as (st1 & r1 & E1 & Hinv1 & Hin1 & P1).
  exists st1, r1. split; [exact E1|]. split; [exact Hinv1|].
  split; [|split].
  - intros old Hin Pold.
    destruct (upsert_existing st d ts nid old Hinv Hin Pold) as (i & Hn & E).
    rewrite E in E1. injection E1 as <- <-.
    exists i. split; [exact Hn|]. split; [reflexivity|]. split; [reflexivity|].
    split; [eapply assign_nth_same; eauto|].
    split; [intros j Hj; apply assign_nth_other; congruence|].
    split; [apply assign_length|]. repeat split.
  - intros Habs. rewrite (upsert_absent st d ts nid Habs) in E1.
    injection E1 as <- <-. split; reflexivity.
  - destruct (upsert_existing st1 d ts' nid' r1 Hinv1 Hin1 P1) as (i & Hn & E2).
    clear E1. do 2 eexists. split; [exact E2|].
    assert (Hinv2 : onePerPair
              (Js.assign st1 i (withAmount r1 (Budget.d_amount d) ts')))
      by (now apply onePerPair_assign).
    split; [now apply budgetsFor_single|].
    split; [|split; [reflexivity|split; [apply assign_length|exact Hinv2]]].
    apply budgetsFor_single; trivial.
    eapply assign_In; eauto.
Qed.

Lemma addOrUpdateBudget_keeps_one_per_pair_witness :
  exists st1 r1,
    upsert [rentBudget] (Budget.mkDraft "2025-01" "Groceries" 100) "t" "b1"
    = Some (st1, Resolved r1) /\
    onePerPair st1 /\
    exists st2 r2,
      upsert st1 (Budget.mkDraft "2025-01" "Groceries" 100) "u" "b3"
      = Some (st2, Resolved r2) /\
      Budget.id r2 = Budget.id r1 /\
      List.length st2 = List.length st1.
Proof.
  assert (Hinv : onePerPair [rentBudget]).
  { repeat constructor. intros []. }
  destruct (addOrUpdateBudget_keeps_one_per_pair [rentBudget]
              (Budget.mkDraft "2025-01" "Groceries" 100) "t" "b1" "u" "b3" Hinv)
    as (st1 & r1 & E1 & Hinv1 & _ & _ & st2 & r2 & E2 & _ & _ & Hid & Hlen & _).
  exists st1, r1. split; [exact E1|]. split; [exact Hinv1|].
  exists st2, r2. repeat split; assumption.
Defined.

(** C5 fails for a second call through the same callback.  The callback
    searches the pair in the list of the render that created it and writes
    into the list that the updater receives.  Called twice by a handler that
    holds the callback of a render without budgets, it appends a budget for
    the pair both times: the state then holds two budgets for ("2025-01",
    "Rent"), under two ids, where the specification leaves one budget with
    its id unchanged. *)
Theorem addOrUpdateBudget_twice_through_one_callback :
  onePerPair [] /\
  addOrUpdateBudget [] rentDraft "now" "b8" []
  = Some ([firstRent], Resolved firstRent) /\
  onePerPair [firstRent] /\
  addOrUpdateBudget [] rentDraft "later" "b9" [firstRent]
  = Some ([firstRent; secondRent], Resolved secondRent) /\
  budgetsFor rentDraft [firstRent; secondRent] = [firstRent; secondRent] /\
  Budget.id secondRent <> Budget.id firstRent /\
  ~ onePerPair [firstRent; secondRent].
Proof.
  split; [constructor|]. split; [reflexivity|].
  split; [repeat constructor; intros []|].
  split; [reflexivity|]. split; [reflexivity|]. split; [discriminate|].
  intros Hnd. inversion Hnd as [|? ? Hnotin _]; subst.
  apply Hnotin. now left.
Qed.

(** ** Sorting *)

Section Sort.
Context {A : Type} (compareFn : A -> A -> Z).

Lemma insert_perm (x : A) (l : list A) :
  Permutation (Js.insert compareFn x l) (x :: l).
Proof.
  induction l as [|y l IH]; simpl; [reflexivity|].
  destruct (compareFn x y <=? 0); [reflexivity|].
  rewrite IH. apply perm_swap.
Qed.

Lemma sort_perm (l : list A) : Permutation (Js.sort compareFn l) l.
Proof.
  induction l as [|x l IH]; simpl; [reflexivity|].
  rewrite insert_perm. now constructor.
Qed.

Lemma sort_In (l : list A) (x : A) : In x (Js.sort compareFn l) <-> In x l.
Proof.
  split; apply Permutation_in; [|symmetry]; apply sort_perm.
Qed.

Lemma sort_nil (l : list A) : Js.sort compareFn l = [] -> l = [].
Proof.
  intros E. apply Permutation_nil. rewrite <- E. apply sort_perm.
Qed.

(** Where [compareFn] sends every pair one way or the other, the result is
    ordered by it. *)
Hypothesis compareFn_total :
  forall a b, 0 < compareFn a b -> compareFn b a <= 0.

Lemma insert_sorted (x : A) (l : list A) :
  Sorted (fun a b => compareFn a b <= 0) l ->
  Sorted (fun a b => compareFn a b <= 0) (Js.insert compareFn x l).
Proof.
  induction l as [|y l IH]; simpl; intros Hs.
  - repeat constructor.
  - destruct (compareFn x y <=? 0) eqn:E.
    + apply Z.leb_le in E. constructor; trivial. now constructor.
    + apply Z.leb_gt in E. inversion Hs as [|? ? Hs' Hhd]; subst.
      constructor; [now apply IH|].
      destruct l as [|z l]; simpl.
      * constructor. now apply compareFn_total.
      * destruct (compareFn x z <=? 0).
        -- constructor. now apply compareFn_total.
        -- constructor. now inversion Hhd.
Qed.

Lemma sort_sorted (l : list A) :
  Sorted (fun a b => compareFn a b <= 0) (Js.sort compareFn l).
Proof.
  induction l as [|x l IH]; simpl; [constructor|now apply insert_sorted].
Qed.
End Sort.

(** Sorting by a descending key puts an element of largest key first. *)
Lemma sort_descending_head {A : Type} (f : A -> Z) (l : list A) (w : A)
    (rest : list A) :
  Js.sort (fun a b => f b - f a) l = w :: rest ->
  In w l /\ forall r, In r l -> f r <= f w.
Proof.
  revert w rest. induction l as [|x l IH]; simpl; intros w rest E.
  - discriminate.
  - destruct (Js.sort (fun a b => f b - f a) l) as [|h t] eqn:Hs.
    + simpl in E. injection E as <- <-.
      apply sort_nil in Hs. subst l. split; [now left|].
      intros r [<-|[]]. lia.
    + destruct (IH h t eq_refl) as [Hh Hmax]. simpl in E.
      destruct (f h - f x <=? 0) eqn:Hc.
      * apply Z.leb_le in Hc. injection E as <- <-.
        split; [now left|].
        intros r [<-|Hr]; [lia|]. specialize (Hmax r Hr). lia.
      * apply Z.leb_gt in Hc. injection E as <- <-.
        split; [now right|].
        intros r [<-|Hr]; [lia|]. now apply Hmax.
Qed.

Lemma sort_head_exists {A : Type} (compareFn : A -> A -> Z) (l : list A)
    (x : A) :
  In x l -> exists w rest, Js.sort compareFn l = w :: rest.
Proof.
  intros Hx. destruct (Js.sort compareFn l) as [|w rest] eqn:E.
  - apply sort_nil in E. subst l. destruct Hx.
  - eauto.
Qed.

(** ** Insights *)

Lemma generateInsights_nonempty (c : list Comparison.t) (stats : Stats.t) :
  c <> [] ->
  generateInsights c stats
  = (overallInsight c ++ overBudgetInsight c ++ underBudgetInsight c
     ++ topSpendingInsight (sortedByActual c) (totalActual c)
     ++ unusedInsight (sortedByActual c),
     sortedByActual c).
Proof.
  destruct c; [congruence|reflexivity].
Qed.

Lemma isOverBudget_iff (r : Comparison.t) :
  isOverBudget r = true
  <-> 0 < Comparison.budgeted r /\ Comparison.budgeted r < Comparison.actual r.
Proof.
  unfold isOverBudget. now rewrite andb_true_iff, !Z.ltb_lt.
Qed.

Lemma isUnderBudget_iff (r : Comparison.t) :
  isUnderBudget r = true
  <-> 0 < Comparison.budgeted r /\ Comparison.actual r < Comparison.budgeted r.
Proof.
  unfold isUnderBudget. now rewrite andb_true_iff, !Z.ltb_lt.
Qed.




Lemma roundPercent_finite (a b : Z) :
  b <> 0 -> Js.roundPercent a b = Js.Finite ((200 * a + b) / (2 * b)).
Proof.
  intros Hb. unfold Js.roundPercent.
  apply Z.eqb_neq in Hb. now rewrite Hb.
Qed.

Lemma totalActual_sum (c : list Comparison.t) :
  totalActual c = sumZ (map Comparison.actual c).
Proof. unfold totalActual. rewrite fold_left_sum. lia. Qed.

Lemma totalActual_ge (c : list Comparison.t) (r : Comparison.t) :
  (forall x, In x c -> 0 <= Comparison.actual x) -> In r c ->
  Comparison.actual r <= totalActual c.
Proof.
  intros Hc Hr. rewrite totalActual_sum. apply sumZ_elem_le.
  - intros y Hy. apply in_map_iff in Hy. destruct Hy as (x & <- & Hx). auto.
  - now apply in_map.
Qed.

Lemma guarded_finite (c : list Comparison.t) (i : Insight.t) (p : Js.number) :
  guarded c i -> Insight.percentage i = Some p -> Js.isFinite p = true.
Proof.
  unfold guarded, Insight.percentage.
  destruct (Insight.text i) as [? q|? q|? ? q|? ? q|? ? q|?]; intros Hg [= <-].
  - destruct Hg as [Hpos ->]. rewrite roundPercent_finite by lia. reflexivity.
  - destruct Hg as [Hpos ->]. rewrite roundPercent_finite by lia. reflexivity.
  - destruct Hg as (w & _ & _ & Hpos & ->).
    rewrite roundPercent_finite by lia. reflexivity.
  - destruct Hg as (w & _ & _ & Hpos & ->).
    rewrite roundPercent_finite by lia. reflexivity.
  - destruct Hg as [Hpos ->]. rewrite roundPercent_finite by lia. reflexivity.
Qed.

(** C4: when no row has a negative actual, every insight is computed with a
    nonzero denominator (the total budgeted, positive, for the utilization
    insight; the positive budget of the selected row for the over- and
    under-budget insights; the total actual, positive, for the top-spending
    insight), so every percentage it prints is a finite number. *)
Theorem generateInsights_percentages_finite (c : list Comparison.t)
    (stats : Stats.t) :
  (forall r, In r c -> 0 <= Comparison.actual r) ->
  forall i, In i (fst (generateInsights c stats)) ->
    guarded c i /\
    forall p, Insight.percentage i = Some p -> Js.isFinite p = true.
Proof.
  intros Hc i Hi.
  assert (Hg : guarded c i); [|split; [exact Hg|intros p; exact (guarded_finite c i p Hg)]].
  destruct c as [|r0 c0] eqn:Ec; [destruct Hi|]. rewrite <- Ec in *.
  assert (Hne : c <> []) by (rewrite Ec; discriminate). clear Ec r0 c0.
  rewrite (generateInsights_nonempty c stats Hne) in Hi; simpl fst in Hi.
  repeat (apply in_app_or in Hi; destruct Hi as [Hi|Hi]).
  - unfold overallInsight in Hi.
    destruct (0 <? totalBudgeted c) eqn:Hpos; [|destruct Hi].
    apply Z.ltb_lt in Hpos.
    destruct (totalBudgeted c <? totalActual c);
      destruct Hi as [<-|[]]; split; trivial.
  - unfold overBudgetInsight in Hi.
    destruct (Js.sort _ (filter isOverBudget c)) as [|w rest] eqn:E;
      [destruct Hi|].
    destruct Hi as [<-|[]].
    assert (Hw : In w (filter isOverBudget c))
      by (eapply sort_In; rewrite E; now left).
    apply filter_In in Hw. destruct Hw as [Hw Pw].
    apply isOverBudget_iff in Pw. exists w. tauto.
  - unfold underBudgetInsight in Hi.
    destruct (Js.sort _ (filter isUnderBudget c)) as [|w rest] eqn:E;
      [destruct Hi|].
    destruct Hi as [<-|[]].
    assert (Hw : In w (filter isUnderBudget c))
      by (eapply sort_In; rewrite E; now left).
    apply filter_In in Hw. destruct Hw as [Hw Pw].
    apply isUnderBudget_iff in Pw. exists w. tauto.
  - unfold topSpendingInsight in Hi.
    destruct (sortedByActual c) as [|w rest] eqn:E; [destruct Hi|].
    destruct (0 <? Comparison.actual w) eqn:Hpos; [|destruct Hi].
    apply Z.ltb_lt in Hpos. destruct Hi as [<-|[]].
    assert (Hw : In w c).
    { apply (sort_In (fun a b => Comparison.actual b - Comparison.actual a)).
      fold (sortedByActual c). rewrite E. now left. }
    pose proof (totalActual_ge c w Hc Hw). split; [lia|reflexivity].
  - unfold unusedInsight in Hi.
    destruct (0 <? List.length (filter isUnused (sortedByActual c)))%nat;
      [|destruct Hi].
    destruct Hi as [<-|[]]. exact I.
Qed.

Lemma generateInsights_percentages_finite_witness :
  Forall
    (fun i => forall p, Insight.percentage i = Some p -> Js.isFinite p = true)
    (fst (generateInsights [rentRow; groceriesRow] noStats)).
Proof.
  apply Forall_forall. intros i Hi.
  apply (generateInsights_percentages_finite [rentRow; groceriesRow] noStats);
    [|exact Hi].
  intros r [<-|[<-|[]]]; simpl; lia.
Defined.

(** C2 fails for [generateInsights]: [budgetComparison.sort(...)] sorts the
    array that the caller passed. On the rows "Rent" (nothing spent) and
    "Groceries" (120 spent), in this order, the array holds "Groceries"
    before "Rent" when the call returns. *)
Theorem generateInsights_reorders_its_argument :
  snd (generateInsights [rentRow; groceriesRow] noStats)
  = [groceriesRow; rentRow] /\
  snd (generateInsights [rentRow; groceriesRow] noStats)
  <> [rentRow; groceriesRow].
Proof.
  split; [reflexivity|discriminate].
Qed.

(** ** Objects and sets *)

Section ObjectFacts.
Context {V : Type}.
Implicit Types (o : Js.Obj V) (k : string) (v : V).

Lemma get_set_same o k v : Js.get (Js.set o k v) k = Some v.
Proof.
  induction o as [|[k' v'] o IH]; simpl.
  - now rewrite String.eqb_refl.
  - destruct (k' =? k)%string eqn:E; simpl; rewrite E; auto.
Qed.

Lemma get_set_other o k k' v :
  k <> k' -> Js.get (Js.set o k v) k' = Js.get o k'.
Proof.
  intros Hk. induction o as [|[k0 v0] o IH]; simpl.
  - apply String.eqb_neq in Hk. now rewrite Hk.
  - destruct (k0 =? k)%string eqn:E; simpl.
    + apply String.eqb_eq in E. subst k0.
      apply String.eqb_neq in Hk. now rewrite Hk.
    + now rewrite IH.
Qed.

Lemma keys_set o k v :
  Js.keys (Js.set o k v)
  = if Js.mem k (Js.keys o) then Js.keys o else Js.keys o ++ [k].
Proof.
  unfold Js.keys, Js.mem. induction o as [|[k' v'] o IH]; simpl; trivial.
  rewrite (String.eqb_sym k k').
  destruct (k' =? k)%string eqn:E; simpl; trivial.
  rewrite IH. now destruct (existsb (String.eqb k) (map fst o)).
Qed.

Lemma get_none o k : Js.get o k = None <-> ~ In k (Js.keys o).
Proof.
  unfold Js.keys. induction o as [|[k' v'] o IH]; simpl; [tauto|].
  destruct (k' =? k)%string eqn:E.
  - apply String.eqb_eq in E. split; [discriminate|tauto].
  - apply String.eqb_neq in E. rewrite IH. tauto.
Qed.

Lemma get_In o k v :
  NoDup (Js.keys o) -> (In (k, v) o <-> Js.get o k = Some v).
Proof.
  unfold Js.keys. induction o as [|[k' v'] o IH]; simpl; intros Hnd.
  - split; [tauto|discriminate].
  - inversion Hnd as [|? ? Hnotin Hnd']; subst.
    destruct (k' =? k)%string eqn:E.
    + apply String.eqb_eq in E. subst k'. split.
      * intros [[= ->]|Hin]; trivial.
        exfalso. apply Hnotin. now apply (in_map fst) in Hin.
      * intros [= ->]. now left.
    + apply String.eqb_neq in E. rewrite <- (IH Hnd'). split.
      * intros [[= -> _]|Hin]; [congruence|trivial].
      * now right.
Qed.
End ObjectFacts.

Lemma mem_In (x : string) (s : list string) : Js.mem x s = true <-> In x s.
Proof.
  unfold Js.mem. rewrite existsb_exists. split.
  - intros (y & Hy & E). apply String.eqb_eq in E. now subst.
  - intros Hx. exists x. split; trivial. apply String.eqb_refl.
Qed.

Lemma keys_set_In {V : Type} (o : Js.Obj V) (k x : string) (v : V) :
  In x (Js.keys (Js.set o k v)) <-> x = k \/ In x (Js.keys o).
Proof.
  rewrite keys_set. destruct (Js.mem k (Js.keys o)) eqn:E.
  - apply mem_In in E. split; [tauto|]. intros [->|Hx]; trivial.
  - rewrite in_app_iff; simpl. split; [intros [?|[?|[]]]|intros [?|?]]; auto.
Qed.

Lemma keys_set_NoDup {V : Type} (o : Js.Obj V) (k : string) (v : V) :
  NoDup (Js.keys o) -> NoDup (Js.keys (Js.set o k v)).
Proof.
  intros Hnd. rewrite keys_set. destruct (Js.mem k (Js.keys o)) eqn:E; trivial.
  assert (Hk : ~ In k (Js.keys o)).
  { intros Hin. apply mem_In in Hin. congruence. }
  apply NoDup_app; trivial.
  - constructor; [intros []|constructor].
  - intros x Hx [<-|[]]. contradiction.
Qed.

Lemma newSet_from_In (l acc : list string) (x : string) :
  In x (fold_left (fun s y => if Js.mem y s then s else s ++ [y]) l acc)
  <-> In x acc \/ In x l.
Proof.
  revert acc. induction l as [|y l IH]; intros acc; simpl; [tauto|].
  rewrite IH. destruct (Js.mem y acc) eqn:E.
  - apply mem_In in E. split; [tauto|].
    intros [?|[<-|?]]; auto.
  - rewrite in_app_iff; simpl. tauto.
Qed.

Lemma newSet_from_NoDup (l acc : list string) :
  NoDup acc ->
  NoDup (fold_left (fun s y => if Js.mem y s then s else s ++ [y]) l acc).
Proof.
  revert acc. induction l as [|y l IH]; intros acc Hnd; simpl; trivial.
  apply IH. destruct (Js.mem y acc) eqn:E; trivial.
  assert (Hy : ~ In y acc).
  { intros Hin. apply mem_In in Hin. congruence. }
  apply NoDup_app; trivial.
  - constructor; [intros []|constructor].
  - intros x Hx [<-|[]]. contradiction.
Qed.

Lemma newSet_In (l : list string) (x : string) : In x (Js.newSet l) <-> In x l.
Proof. unfold Js.newSet. rewrite newSet_from_In; simpl. tauto. Qed.

Lemma newSet_NoDup (l : list string) : NoDup (Js.newSet l).
Proof. apply newSet_from_NoDup. constructor. Qed.

(** ** Expenses by category *)

Lemma orZero_some (v : Z) : orZero (Some v) = v.
Proof. simpl. destruct (v =? 0) eqn:E; [apply Z.eqb_eq in E; lia|reflexivity]. Qed.

Lemma addExpense_get (o : Js.Obj Z) (t : Transaction.t) (c : string) :
  orZero (Js.get (addExpense o t) c)
  = orZero (Js.get o c)
    + (if (categoryOrOther t =? c)%string
       then Z.abs (Transaction.amount t) else 0).
Proof.
  unfold addExpense. destruct (categoryOrOther t =? c)%string eqn:E.
  - apply String.eqb_eq in E. subst c.
    now rewrite get_set_same, orZero_some.
  - apply String.eqb_neq in E. rewrite get_set_other by exact E. lia.
Qed.

Lemma addExpense_fold_get (l : list Transaction.t) (o : Js.Obj Z) (c : string) :
  orZero (Js.get (fold_left addExpense l o) c)
  = orZero (Js.get o c) + spent (ofCategory c l).
Proof.
  revert o. induction l as [|t l IH]; intros o; simpl.
  - unfold spent; simpl. lia.
  - rewrite IH, addExpense_get. unfold spent, ofCategory in *.
    destruct (categoryOrOther t =? c)%string; simpl; lia.
Qed.

Lemma addExpense_fold_keys (l : list Transaction.t) (o : Js.Obj Z)
    (c : string) :
  In c (Js.keys (fold_left addExpense l o))
  <-> In c (Js.keys o) \/ exists t, In t l /\ categoryOrOther t = c.
Proof.
  revert o. induction l as [|t l IH]; intros o; simpl.
  - split; [tauto|]. intros [?|(t & [] & _)]; trivial.
  - rewrite IH. unfold addExpense at 1. rewrite keys_set_In. split.
    + intros [[->|?]|(u & Hu & E)]; eauto.
    + intros [?|(u & [<-|Hu] & E)]; eauto.
Qed.


Lemma spent_nonneg (l : list Transaction.t) : 0 <= spent l.
Proof.
  apply sumZ_nonneg. intros x Hx. apply in_map_iff in Hx.
  destruct Hx as (t & <- & _). apply Z.abs_nonneg.
Qed.

Lemma filter_filter {A : Type} (p q : A -> bool) (l : list A) :
  filter p (filter q l) = filter (fun x => p x && q x) l.
Proof.
  induction l as [|x l IH]; simpl; trivial.
  destruct (q x); simpl.
  - destruct (p x); simpl; now rewrite IH.
  - now rewrite andb_false_r.
Qed.

Lemma filter_key_single {A : Type} (f : A -> string) (l : list A) (x : A) :
  NoDup (map f l) -> In x l ->
  filter (fun y => (f y =? f x)%string) l = [x].
Proof.
  induction l as [|z l IH]; simpl; [easy|].
  intros Hnd Hx. inversion Hnd as [|? ? Hnotin Hnd']; subst.
  destruct (f z =? f x)%string eqn:E.
  - apply String.eqb_eq in E.
    assert (Hrest : filter (fun y => (f y =? f x)%string) l = []).
    { apply filter_none. intros y Hy. apply String.eqb_neq. intros Hf.
      apply Hnotin. rewrite E, <- Hf. now apply in_map. }
    rewrite Hrest. destruct Hx as [->|Hx]; trivial.
    exfalso. apply Hnotin. rewrite E. now apply in_map.
  - apply String.eqb_neq in E. destruct Hx as [->|Hx]; [congruence|].
    now apply IH.
Qed.

Section CompareFacts.
Context `{DateEnv}.

Lemma monthlyExpenses_fold (transactions : list Transaction.t) (m : string) :
  m <> "" ->
  calculateMonthlyExpensesByCategory transactions m
  = fold_left addExpense (expensesIn m transactions) [].
Proof.
  intros Hm. apply String.eqb_neq in Hm.
  unfold calculateMonthlyExpensesByCategory, getTransactionsForMonth,
    expensesIn.
  rewrite Hm. destruct transactions as [|t l]; [reflexivity|].
  cbn [Js.isEmpty orb]. now rewrite filter_filter.
Qed.

(** The rows of a comparison, one per category of [allCategories]. *)
Lemma compareBudgetWithActual_rows (transactions : list Transaction.t)
    (budgets : list Budget.t) (m : string) :
  m <> "" ->
  compareBudgetWithActual transactions budgets m
  = map
      (fun c =>
         Comparison.mk c (budgetFor m c budgets)
           (spent (ofCategory c (expensesIn m transactions)))
           (budgetFor m c budgets
            - spent (ofCategory c (expensesIn m transactions))))
      (Js.newSet
         (Js.keys (fold_left addExpense (expensesIn m transactions) [])
          ++ map Budget.category
               (filter (fun b => (Budget.month b =? m)%string) budgets))).
Proof.
  intros Hm. unfold compareBudgetWithActual.
  rewrite (monthlyExpenses_fold _ _ Hm).
  apply String.eqb_neq in Hm. rewrite Hm.
  apply map_ext. intros c.
  rewrite find_filter. fold (budgetFor m c budgets).
  rewrite addExpense_fold_get. simpl Js.get. simpl orZero.
  rewrite Z.add_0_l. reflexivity.
Qed.

Lemma compareBudgetWithActual_categories (transactions : list Transaction.t)
    (budgets : list Budget.t) (m : string) :
  m <> "" ->
  map Comparison.category (compareBudgetWithActual transactions budgets m)
  = Js.newSet
      (Js.keys (fold_left addExpense (expensesIn m transactions) [])
       ++ map Budget.category
            (filter (fun b => (Budget.month b =? m)%string) budgets)).
Proof.
  intros Hm. rewrite (compareBudgetWithActual_rows _ _ _ Hm), map_map.
  simpl. apply map_id.
Qed.

Lemma compareBudgetWithActual_empty_key (transactions : list Transaction.t)
    (budgets : list Budget.t) :
  compareBudgetWithActual transactions budgets "" = [].
Proof. reflexivity. Qed.
End CompareFacts.

(** ** Budget against actual spending *)

(** The comparison in terms of the month filter of the code ([inMonth],
    which compares the local-time month of the parsed date with the month of
    the key).  For a month key [m], the categories of the rows of
    [compareBudgetWithActual] are those of the budgets of month [m]
    together with those (a missing category read as "Other") of the
    negative-amount transactions that the filter keeps for [m]; and in every row
    [difference] is [budgeted - actual], [budgeted] is the amount of the
    budget of [m] for the category (0 without one) and [actual] is the sum
    of the absolute values of the expenses of [m] in the category. *)
Theorem compareBudgetWithActual_union `{DateEnv}
    (transactions : list Transaction.t) (budgets : list Budget.t)
    (m : string) :
  m <> "" ->
  let rows := compareBudgetWithActual transactions budgets m in
  (forall c,
     In c (map Comparison.category rows) <->
     (exists b, In b budgets /\ Budget.month b = m /\ Budget.category b = c) \/
     (exists t, In t transactions /\ Transaction.amount t < 0 /\
                inMonth m t = true /\ categoryOrOther t = c)) /\
  (forall r, In r rows ->
     Comparison.difference r = Comparison.budgeted r - Comparison.actual r /\
     Comparison.budgeted r = budgetFor m (Comparison.category r) budgets /\
     Comparison.actual r
     = spent (ofCategory (Comparison.category r) (expensesIn m transactions))).
Proof.
  intros Hm rows. split.
  - intros c. unfold rows.
    rewrite (compareBudgetWithActual_categories _ _ _ Hm).
    rewrite newSet_In, in_app_iff, addExpense_fold_keys, in_map_iff.
    simpl. split.
    + intros [[[]|(t & Ht & Hc)]|(b & Hc & Hb)].
      * right. apply filter_In in Ht. destruct Ht as [Ht P].
        apply andb_true_iff in P. destruct P as [Pe Pm].
        apply Z.ltb_lt in Pe. exists t. auto.
      * left. apply filter_In in Hb. destruct Hb as [Hb P].
        apply String.eqb_eq in P. exists b. auto.
    + intros [(b & Hb & Hbm & Hc)|(t & Ht & Pe & Pm & Hc)].
      * right. exists b. split; trivial. apply filter_In. split; trivial.
        now apply String.eqb_eq.
      * left. right. exists t. split; trivial. apply filter_In. split; trivial.
        apply andb_true_iff. split; trivial. now apply Z.ltb_lt.
  - intros r Hr. unfold rows in Hr.
    rewrite (compareBudgetWithActual_rows _ _ _ Hm) in Hr.
    apply in_map_iff in Hr. destruct Hr as (c & <- & _). simpl. auto.
Qed.

Lemma compareBudgetWithActual_union_witness :
  (forall c,
     In c (map Comparison.category
             (compareBudgetWithActual [groceries; groceries'; salary; undated]
                [rentBudget; groceriesBudget] "2025-01")) <->
     (exists b, In b [rentBudget; groceriesBudget] /\
                Budget.month b = "2025-01" /\ Budget.category b = c) \/
     (exists t, In t [groceries; groceries'; salary; undated] /\
                Transaction.amount t < 0 /\ inMonth "2025-01" t = true /\
                categoryOrOther t = c)) /\
  compareBudgetWithActual [groceries; groceries'; salary; undated]
    [rentBudget; groceriesBudget] "2025-01"
  = [Comparison.mk "Groceries" 100 80 20; Comparison.mk "Rent" 700 0 700].
Proof.
  assert (Hm : "2025-01" <> "") by discriminate.
  split.
  - apply (compareBudgetWithActual_union
             [groceries; groceries'; salary; undated]
             [rentBudget; groceriesBudget] "2025-01" Hm).
  - reflexivity.
Defined.

(** C1 fails five hours west of UTC.  The late fee is dated 2025-02-01, so
    it is not dated within January; the code reads the date string as
    midnight UTC, which is still 31 January in local time, and compares it
    with the local-time bounds of the month.  The comparison of January
    therefore has a row for "Fees" with 50 spent, and the comparison of
    February has none.  In UTC the same calls give the rows of the
    specification. *)
Theorem compareBudgetWithActual_west_of_utc :
  Transaction.date lateFee = Some "2025-02-01" /\
  @compareBudgetWithActual utcMinus5 [lateFee] [] "2025-01"
  = [Comparison.mk "Fees" 0 50 (-50)] /\
  @compareBudgetWithActual utcMinus5 [lateFee] [] "2025-02" = [] /\
  @compareBudgetWithActual utcIso [lateFee] [] "2025-01" = [] /\
  @compareBudgetWithActual utcIso [lateFee] [] "2025-02"
  = [Comparison.mk "Fees" 0 50 (-50)].
Proof. repeat split; reflexivity. Qed.

(** C10: the rows of [compareBudgetWithActual] have pairwise distinct
    categories and a non-negative [actual], and [budgeted] is the amount of
    the first budget of the list for that month and category; so a budget
    of month [m], however many budgets share its category, has exactly one
    row, with the amount of the first of them. *)
Theorem compareBudgetWithActual_distinct_categories `{DateEnv}
    (transactions : list Transaction.t) (budgets : list Budget.t)
    (m : string) :
  let rows := compareBudgetWithActual transactions budgets m in
  NoDup (map Comparison.category rows) /\
  (forall r, In r rows ->
     0 <= Comparison.actual r /\
     Comparison.budgeted r = budgetFor m (Comparison.category r) budgets) /\
  (m <> "" ->
   forall b, In b budgets -> Budget.month b = m ->
     exists r,
       filter
         (fun r' => (Comparison.category r' =? Budget.category b)%string) rows
       = [r] /\
       Comparison.category r = Budget.category b /\
       Comparison.budgeted r = budgetFor m (Budget.category b) budgets).
Proof.
  intros rows. destruct (string_dec m "") as [->|Hm].
  - unfold rows. rewrite compareBudgetWithActual_empty_key.
    split; [constructor|]. split; [intros r []|congruence].
  - assert (Hnd : NoDup (map Comparison.category rows)).
    { unfold rows. rewrite (compareBudgetWithActual_categories _ _ _ Hm).
      apply newSet_NoDup. }
    assert (Hrows : forall r, In r rows ->
              0 <= Comparison.actual r /\
              Comparison.budgeted r
              = budgetFor m (Comparison.category r) budgets).
    { intros r Hr. unfold rows in Hr.
      rewrite (compareBudgetWithActual_rows _ _ _ Hm) in Hr.
      apply in_map_iff in Hr. destruct Hr as (c & <- & _). simpl.
      split; [apply spent_nonneg|reflexivity]. }
    split; [exact Hnd|]. split; [exact Hrows|].
    intros _ b Hb Hbm.
    assert (Hc : In (Budget.category b) (map Comparison.category rows)).
    { unfold rows. rewrite (compareBudgetWithActual_categories _ _ _ Hm).
      rewrite newSet_In, in_app_iff. right. apply in_map.
      apply filter_In. split; trivial. now apply String.eqb_eq. }
    apply in_map_iff in Hc. destruct Hc as (r & Hrc & Hr).
    exists r. rewrite <- Hrc. split; [|split; [reflexivity|]].
    + now apply filter_key_single.
    + now apply Hrows.
Qed.

Lemma compareBudgetWithActual_distinct_categories_witness :
  exists r,
    filter (fun r' => (Comparison.category r' =? "Groceries")%string)
      (compareBudgetWithActual [groceries; groceries']
         [groceriesBudget; lowerGroceriesBudget] "2025-01")
    = [r] /\
    Comparison.budgeted r = 100.
Proof.
  assert (Hm : "2025-01" <> "") by discriminate.
  destruct (compareBudgetWithActual_distinct_categories
              [groceries; groceries'] [groceriesBudget; lowerGroceriesBudget]
              "2025-01") as (_ & _ & Hone).
  destruct (Hone Hm lowerGroceriesBudget (or_intror (or_introl eq_refl))
              eq_refl) as (r & Hr & _ & Hb).
  exists r. split; [exact Hr|exact Hb].
Defined.

(** ** Monthly totals *)

Lemma localeCompare_total (a b : string) :
  0 < Js.localeCompare a b -> Js.localeCompare b a <= 0.
Proof.
  unfold Js.localeCompare. rewrite (String.compare_antisym a b).
  destruct (String.compare b a); simpl; lia.
Qed.

Lemma compare_lt_trans (a b c : string) :
  String.compare a b = Lt -> String.compare b c = Lt ->
  String.compare a c = Lt.
Proof.
  intros Hab Hbc. apply String_as_OT.cmp_lt.
  apply String_as_OT.cmp_lt in Hab, Hbc.
  eapply String_as_OT.lt_trans; eauto.
Qed.

Lemma sorted_distinct_strict (l : list MonthlyTotal.t) :
  Sorted
    (fun a b =>
       Js.localeCompare (MonthlyTotal.key a) (MonthlyTotal.key b) <= 0) l ->
  NoDup (map MonthlyTotal.key l) ->
  StronglySorted keyBefore l.
Proof.
  intros Hs Hnd. apply Sorted_StronglySorted.
  - intros a b c. apply compare_lt_trans.
  - induction Hs as [|a l Hs IH Hhd]; [constructor|].
    simpl in Hnd. inversion Hnd as [|? ? Hnotin Hnd']; subst.
    constructor; [now apply IH|].
    destruct Hhd as [|b l' Hab]; constructor.
    unfold keyBefore, Js.localeCompare in *.
    destruct (String.compare (MonthlyTotal.key a) (MonthlyTotal.key b)) eqn:E;
      trivial; [|lia].
    apply String.compare_eq_iff in E. exfalso. apply Hnotin.
    simpl. now left.
Qed.

Section GroupFacts.
Context `{DateEnv}.

Lemma groupStep_skip (g : Js.Obj MonthlyTotal.t) (t : Transaction.t) :
  datedMonth t = None -> groupStep g t = g.
Proof.
  unfold datedMonth, groupStep. destruct (Transaction.date t) as [s|]; trivial.
  destruct (s =? "")%string; trivial. now intros ->.
Qed.

(** A dated transaction creates the bucket of its month if it is missing,
    and adds its amount to it. *)
Lemma groupStep_dated (g : Js.Obj MonthlyTotal.t) (t : Transaction.t)
    (d : CalendarMonth) :
  datedMonth t = Some d ->
  groupStep g t
  = match Js.get g (monthKeyOf d) with
    | Some b =>
        Js.set g (monthKeyOf d)
          (MonthlyTotal.mk (MonthlyTotal.name b)
             (MonthlyTotal.total b + Transaction.amount t)
             (MonthlyTotal.key b))
    | None =>
        Js.set g (monthKeyOf d)
          (MonthlyTotal.mk (formatMonth d) (0 + Transaction.amount t)
             (monthKeyOf d))
    end.
Proof.
  unfold datedMonth, groupStep.
  destruct (Transaction.date t) as [s|]; [|discriminate].
  destruct (s =? "")%string; [discriminate|]. intros ->.
  destruct (Js.get g (monthKeyOf d)) as [b|] eqn:E.
  - now rewrite E.
  - rewrite get_set_same; simpl.
    generalize (MonthlyTotal.mk (formatMonth d) 0 (monthKeyOf d)).
    generalize (MonthlyTotal.mk (formatMonth d) (0 + Transaction.amount t)
                  (monthKeyOf d)).
    generalize (monthKeyOf d). clear.
    intros k v v0. induction g as [|[k' v'] g IH]; simpl.
    + now rewrite String.eqb_refl.
    + destruct (k' =? k)%string eqn:E; simpl; rewrite E; trivial.
      now rewrite IH.
Qed.

Lemma groupStep_NoDup (g : Js.Obj MonthlyTotal.t) (t : Transaction.t) :
  NoDup (Js.keys g) -> NoDup (Js.keys (groupStep g t)).
Proof.
  intros Hnd. destruct (datedMonth t) as [d|] eqn:E.
  - rewrite (groupStep_dated g t d E).
    destruct (Js.get g (monthKeyOf d)); now apply keys_set_NoDup.
  - now rewrite groupStep_skip.
Qed.

Lemma datedIn_snoc (k : string) (l : list Transaction.t) (t : Transaction.t) :
  datedIn k (l ++ [t]) = datedIn k l ++ (if hasKey k t then [t] else []).
Proof. unfold datedIn. rewrite filter_app. reflexivity. Qed.

Lemma sumZ_app (l l' : list Z) : sumZ (l ++ l') = sumZ l + sumZ l'.
Proof. induction l as [|x l IH]; simpl; lia. Qed.

Lemma bucketOf_step (g : Js.Obj MonthlyTotal.t) (l : list Transaction.t)
    (t : Transaction.t) (k : string) :
  bucketOf l k (Js.get g k) ->
  bucketOf (l ++ [t]) k (Js.get (groupStep g t) k).
Proof.
  intros Hb. destruct (datedMonth t) as [d|] eqn:E.
  - rewrite (groupStep_dated g t d E).
    destruct (string_dec (monthKeyOf d) k) as [Hk|Hk].
    + assert (Ht : hasKey k t = true).
      { unfold hasKey. rewrite E. now apply String.eqb_eq. }
      rewrite Hk. destruct (Js.get g k) as [b|] eqn:Eg;
        rewrite get_set_same; simpl; rewrite datedIn_snoc, Ht, map_app,
        sumZ_app; simpl.
      * destruct Hb as (Hkey & Htot & u & du & Hu & Hdu & Hku & Hname).
        repeat split; trivial; [lia|].
        exists u, du. rewrite in_app_iff. auto.
      * simpl in Hb. rewrite Hb; simpl.
        split; [reflexivity|]. split; [lia|].
        exists t, d. rewrite in_app_iff; simpl. auto.
    + assert (Ht : hasKey k t = false).
      { unfold hasKey. rewrite E. now apply String.eqb_neq. }
      assert (Hg : forall v, Js.get (Js.set g (monthKeyOf d) v) k = Js.get g k)
        by (intros v; now apply get_set_other).
      destruct (Js.get g (monthKeyOf d)); rewrite Hg;
        (destruct (Js.get g k) as [b|]; simpl in *;
         rewrite datedIn_snoc, Ht, app_nil_r; trivial);
        destruct Hb as (Hkey & Htot & u & du & Hu & Hdu & Hku & Hname);
        repeat split; trivial; exists u, du; rewrite in_app_iff; auto.
  - rewrite (groupStep_skip g t E).
    assert (Ht : hasKey k t = false) by (unfold hasKey; now rewrite E).
    destruct (Js.get g k) as [b|]; simpl in *;
      rewrite datedIn_snoc, Ht, app_nil_r; trivial.
    destruct Hb as (Hkey & Htot & u & du & Hu & Hdu & Hku & Hname).
    repeat split; trivial. exists u, du. rewrite in_app_iff. auto.
Qed.

(** The object [grouped] after the loop. *)
Lemma grouped_invariant (l : list Transaction.t) :
  NoDup (Js.keys (fold_left groupStep l [])) /\
  forall k, bucketOf l k (Js.get (fold_left groupStep l []) k).
Proof.
  induction l as [|t l [Hnd Hb]] using rev_ind.
  - split; [constructor|]. intros k. reflexivity.
  - rewrite fold_left_app; simpl. split.
    + now apply groupStep_NoDup.
    + intros k. now apply bucketOf_step.
Qed.

Lemma groupTransactionsByMonth_sorted_values (l : list Transaction.t) :
  groupTransactionsByMonth l
  = Js.sort
      (fun a b => Js.localeCompare (MonthlyTotal.key a) (MonthlyTotal.key b))
      (Js.values (fold_left groupStep l [])).
Proof. destruct l; reflexivity. Qed.

Lemma grouped_drops_undated (l : list Transaction.t)
    (g : Js.Obj MonthlyTotal.t) :
  fold_left groupStep l g
  = fold_left groupStep
      (filter (fun t => match datedMonth t with Some _ => true | None => false end) l)
      g.
Proof.
  revert g. induction l as [|t l IH]; intros g; simpl; trivial.
  destruct (datedMonth t) eqn:E; simpl; [apply IH|].
  rewrite (groupStep_skip g t E). apply IH.
Qed.
End GroupFacts.

Lemma values_keys (g : Js.Obj MonthlyTotal.t) :
  (forall k b, In (k, b) g -> MonthlyTotal.key b = k) ->
  map MonthlyTotal.key (Js.values g) = Js.keys g.
Proof.
  unfold Js.values, Js.keys. induction g as [|[k b] g IH]; simpl; trivial.
  intros Hg. rewrite (Hg k b (or_introl eq_refl)). f_equal.
  apply IH. intros k' b' Hin. apply Hg. now right.
Qed.

(** The buckets in terms of the month that the date environment gives for
    a date string (the local-time month of the parsed date).
    [groupTransactionsByMonth] returns buckets in strictly ascending
    order of month key, hence one bucket per key; the keys are exactly the
    month keys of the transactions whose date is present and parseable; the
    total of a bucket is the signed sum of the amounts of the transactions
    dated in its month, and its name is the label of that month; and the
    result is the one obtained after removing the transactions whose date
    is missing or unparseable. *)
Theorem groupTransactionsByMonth_buckets `{DateEnv}
    (transactions : list Transaction.t) :
  let buckets := groupTransactionsByMonth transactions in
  StronglySorted keyBefore buckets /\
  NoDup (map MonthlyTotal.key buckets) /\
  (forall k,
     In k (map MonthlyTotal.key buckets) <->
     exists t d,
       In t transactions /\ datedMonth t = Some d /\ monthKeyOf d = k) /\
  (forall b, In b buckets ->
     MonthlyTotal.total b
     = sumZ (map Transaction.amount
               (datedIn (MonthlyTotal.key b) transactions)) /\
     exists t d,
       In t transactions /\ datedMonth t = Some d /\
       monthKeyOf d = MonthlyTotal.key b /\
       MonthlyTotal.name b = formatMonth d) /\
  buckets
  = groupTransactionsByMonth
      (filter
         (fun t => match datedMonth t with Some _ => true | None => false end)
         transactions).
Proof.
  intros buckets. unfold buckets.
  rewrite !groupTransactionsByMonth_sorted_values.
  rewrite <- grouped_drops_undated.
  set (g := fold_left groupStep transactions []).
  set (cmp := fun a b : MonthlyTotal.t =>
                Js.localeCompare (MonthlyTotal.key a) (MonthlyTotal.key b)).
  destruct (grouped_invariant transactions) as [Hnd Hb]. fold g in Hnd, Hb.
  assert (Hentry : forall k b, In (k, b) g -> bucketOf transactions k (Some b)).
  { intros k b Hin. apply (get_In g k b Hnd) in Hin. rewrite <- Hin. apply Hb. }
  assert (Hkeys : map MonthlyTotal.key (Js.values g) = Js.keys g).
  { apply values_keys. intros k b Hin. now destruct (Hentry k b Hin). }
  assert (Hperm : Permutation (Js.sort cmp (Js.values g)) (Js.values g))
    by apply sort_perm.
  assert (Hnd' : NoDup (map MonthlyTotal.key (Js.sort cmp (Js.values g)))).
  { eapply Permutation_NoDup.
    - apply Permutation_map. symmetry. exact Hperm.
    - now rewrite Hkeys. }
  split; [|split; [exact Hnd'|split; [|split; [|reflexivity]]]].
  - apply sorted_distinct_strict; trivial.
    apply (sort_sorted cmp). intros a b. apply localeCompare_total.
  - intros k.
    assert (Hin : In k (map MonthlyTotal.key (Js.sort cmp (Js.values g)))
                  <-> In k (Js.keys g)).
    { rewrite <- Hkeys.
      split; apply Permutation_in; apply Permutation_map;
        [|symmetry]; exact Hperm. }
    rewrite Hin. specialize (Hb k). split.
    + intros Hk. destruct (Js.get g k) as [b|] eqn:E.
      * destruct Hb as (_ & _ & t & d & Ht & Hd & Hk' & _). exists t, d. auto.
      * apply get_none in E. contradiction.
    + intros (t & d & Ht & Hd & Hk).
      destruct (Js.get g k) as [b|] eqn:E.
      * destruct (In_dec string_dec k (Js.keys g)) as [|Hno]; trivial.
        apply get_none in Hno. congruence.
      * simpl in Hb. exfalso.
        assert (Hin' : In t (datedIn k transactions)).
        { apply filter_In. split; trivial. unfold hasKey. rewrite Hd.
          now apply String.eqb_eq. }
        rewrite Hb in Hin'. destruct Hin'.
  - intros b Hin. apply (Permutation_in _ Hperm) in Hin.
    apply in_map_iff in Hin. destruct Hin as ([k b'] & Hsnd & Hin).
    simpl in Hsnd. subst b'.
    destruct (Hentry k b Hin) as (Hkey & Htot & t & d & Ht & Hd & Hk & Hname).
    rewrite Hkey. split; trivial. exists t, d. auto.
Qed.

(** The buckets of the example, in UTC; the undated cash expense is left
    out. *)
Example groupTransactionsByMonth_example :
  groupTransactionsByMonth [salary; undated; groceries; groceries']
  = [MonthlyTotal.mk "Jan 2025" (-80) "2025-01";
     MonthlyTotal.mk "Feb 2025" 900 "2025-02"].
Proof. reflexivity. Qed.

(** C7 fails five hours west of UTC.  The rent is dated 2025-01-31 and the
    late fee 2025-02-01: two months, so two buckets.  The code takes the
    month from [getFullYear] and [getMonth], which are in local time, of a
    date read as midnight UTC: the rent falls on 30 January and the late fee
    on 31 January, and both land in the one bucket "2025-01".  In UTC the
    same call gives the two buckets of the specification. *)
Theorem groupTransactionsByMonth_west_of_utc :
  Transaction.date rentPaid = Some "2025-01-31" /\
  Transaction.date lateFee = Some "2025-02-01" /\
  @groupTransactionsByMonth utcMinus5 [rentPaid; lateFee]
  = [MonthlyTotal.mk "Jan 2025" (-750) "2025-01"] /\
  @groupTransactionsByMonth utcIso [rentPaid; lateFee]
  = [MonthlyTotal.mk "Jan 2025" (-700) "2025-01";
     MonthlyTotal.mk "Feb 2025" (-50) "2025-02"].
Proof. repeat split; reflexivity. Qed.

(** ** Examples *)

(** 80 spent of a budget of 100: 20 saved, 20% under budget. *)
Example compare_and_insights_under_budget :
  compareBudgetWithActual [groceries; groceries'] [groceriesBudget] "2025-01"
  = [Comparison.mk "Groceries" 100 80 20] /\
  In (Insight.mk (Insight.SavedIn 20 "Groceries" (Js.Finite 20))
        Insight.success)
    (fst (generateInsights [Comparison.mk "Groceries" 100 80 20] noStats)).
Proof. split; [reflexivity|]. simpl. auto. Qed.

(** 120 spent of a budget of 100: over budget by 20, 20% over. *)
Example compare_and_insights_over_budget :
  compareBudgetWithActual [feast] [groceriesBudget] "2025-01"
  = [Comparison.mk "Groceries" 100 120 (-20)] /\
  In (Insight.mk (Insight.OverBudgetIn "Groceries" 20 (Js.Finite 20))
        Insight.warning)
    (fst (generateInsights [Comparison.mk "Groceries" 100 120 (-20)] noStats)).
Proof. split; [reflexivity|]. simpl. auto. Qed.

(** The index is looked up in the list of the render, not in [prev]: a
    callback kept from a render that saw no budget, and run when the state
    already holds one for the pair, appends a second one. The provider
    recreates the callback whenever [budgets] changes, which keeps the two
    lists equal for the calls made from the current render. *)
Remark addOrUpdateBudget_from_an_older_render :
  addOrUpdateBudget [] rentDraft "now" "b9" [rentBudget]
  = Some ([rentBudget; Budget.mk "b9" "2025-01" "Rent" 650 "now" "now"],
          Resolved (Budget.mk "b9" "2025-01" "Rent" 650 "now" "now")) /\
  ~ onePerPair [rentBudget; Budget.mk "b9" "2025-01" "Rent" 650 "now" "now"].
Proof.
  split; [reflexivity|].
  intros Hnd. inversion Hnd as [|? ? Hnotin _]; subst.
  apply Hnotin. now left.
Qed.

(** * Further properties of the stores *)

Lemma filter_negb_keeps {A : Type} (p : A -> bool) (l : list A) :
  (forall x, In x l -> p x = false) -> filter (fun x => negb (p x)) l = l.
Proof.
  induction l as [|x l IH]; simpl; intros Hl; [reflexivity|].
  rewrite (Hl x (or_introl eq_refl)); simpl. f_equal.
  apply IH. intros y Hy. apply Hl. now right.
Qed.

Lemma findIndex_after_filter {A : Type} (p : A -> bool) (l : list A) :
  Js.findIndex p (filter (fun x => negb (p x)) l) = -1.
Proof.
  apply findIndex_none. intros x Hx. apply filter_In in Hx.
  destruct Hx as [_ Hx]. now apply negb_true_iff in Hx.
Qed.

Lemma NoDup_map_filter {A B : Type} (f : A -> B) (q : A -> bool) (l : list A) :
  NoDup (map f l) -> NoDup (map f (filter q l)).
Proof.
  induction l as [|x l IH]; simpl; intros Hnd; [constructor|].
  inversion Hnd as [|? ? Hnotin Hnd']; subst.
  destruct (q x); simpl; [|now apply IH].
  constructor; [|now apply IH].
  intros Hin. apply Hnotin. apply in_map_iff in Hin.
  destruct Hin as (y & Hy & Hf). apply filter_In in Hf.
  apply in_map_iff. exists y. tauto.
Qed.

Lemma deleteTransaction_result (id : string) (l : list Transaction.t) :
  fst (deleteTransaction id l) = filter (fun t => negb (hasId id t)) l.
Proof.
  unfold deleteTransaction.
  destruct (Js.findIndex (hasId id) l =? -1) eqn:E; simpl; trivial.
  apply Z.eqb_eq in E. symmetry. apply filter_negb_keeps.
  now apply findIndex_none.
Qed.

Lemma deleteBudget_result (id : string) (l : list Budget.t) :
  fst (deleteBudget id l)
  = filter (fun b => negb (Budget.id b =? id)%string) l.
Proof.
  unfold deleteBudget.
  destruct (Js.findIndex (fun b => (Budget.id b =? id)%string) l =? -1) eqn:E;
    simpl; trivial.
  apply Z.eqb_eq in E. symmetry.
  apply (filter_negb_keeps (fun b => (Budget.id b =? id)%string)).
  now apply findIndex_none.
Qed.

(** X1: adding a transaction under an id that no stored transaction has,
    and then deleting that id, resolves [true] and gives back the list of
    before. *)
Theorem addTransaction_then_deleteTransaction (d : Transaction.draft)
    (timestamp newId : string) (prev : list Transaction.t) :
  (forall t, In t prev -> Transaction.id t <> newId) ->
  deleteTransaction newId (fst (addTransaction d timestamp newId prev))
  = (prev, Resolved true).
Proof.
  intros Hfresh. unfold addTransaction, deleteTransaction; simpl.
  unfold hasId at 1; simpl. rewrite String.eqb_refl; simpl.
  unfold hasId at 1; simpl. rewrite String.eqb_refl; simpl.
  f_equal. apply filter_negb_keeps. intros t Ht.
  apply String.eqb_neq. now apply Hfresh.
Qed.

Lemma addTransaction_then_deleteTransaction_witness :
  deleteTransaction "t8" (fst (addTransaction coffee "now" "t8" [groceries]))
  = ([groceries], Resolved true).
Proof.
  apply addTransaction_then_deleteTransaction.
  intros t [<-|[]]. discriminate.
Defined.

(** X2: the three mutations keep the ids of the stored transactions
    pairwise distinct: [addTransaction] when the generated id is not stored
    yet, [updateTransaction] when the patch carries no other id (the list of
    ids is then the same), and [deleteTransaction] always. *)
Theorem transaction_ids_stay_unique (prev : list Transaction.t)
    (d : Transaction.draft) (patch : Transaction.partial)
    (timestamp newId id : string) :
  uniqueIds prev ->
  ((forall t, In t prev -> Transaction.id t <> newId) ->
   uniqueIds (fst (addTransaction d timestamp newId prev))) /\
  (Transaction.p_id patch = None \/ Transaction.p_id patch = Some id ->
   map Transaction.id (fst (updateTransaction id patch timestamp prev))
   = map Transaction.id prev /\
   uniqueIds (fst (updateTransaction id patch timestamp prev))) /\
  uniqueIds (fst (deleteTransaction id prev)).
Proof.
  unfold uniqueIds. intros Hnd. split; [|split].
  - intros Hfresh. simpl. constructor; trivial.
    intros Hin. apply in_map_iff in Hin. destruct Hin as (t & Hid & Ht).
    now apply (Hfresh t).
  - intros Hid.
    assert (Hids :
      map Transaction.id (fst (updateTransaction id patch timestamp prev))
      = map Transaction.id prev).
    { unfold updateTransaction.
      destruct (find (hasId id) prev) as [found|]; simpl; trivial.
      rewrite map_map. apply map_ext. intros t.
      destruct (hasId id t) eqn:Ht; trivial.
      apply String.eqb_eq in Ht. unfold mergePatch; simpl.
      destruct Hid as [-> | ->]; simpl; congruence. }
    split; [exact Hids|]. now rewrite Hids.
  - rewrite deleteTransaction_result. now apply NoDup_map_filter.
Qed.

Lemma transaction_ids_stay_unique_witness :
  uniqueIds (fst (addTransaction coffee "now" "t8" [groceries; salary])) /\
  uniqueIds (fst (updateTransaction "t1" newAmount "now" [groceries; salary])) /\
  uniqueIds (fst (deleteTransaction "t1" [groceries; salary])).
Proof.
  assert (Hnd : uniqueIds [groceries; salary]).
  { repeat constructor; simpl; [intros [E|[]]; discriminate E|intros []]. }
  destruct (transaction_ids_stay_unique [groceries; salary] coffee newAmount
              "now" "t8" "t1" Hnd) as (Hadd & Hupd & Hdel).
  split; [|split; [|exact Hdel]].
  - apply Hadd. intros t [<-|[<-|[]]]; discriminate.
  - apply Hupd. now left.
Defined.

(** X4: deleting the same id a second time changes nothing and resolves
    [false], for transactions and for budgets. *)
Theorem delete_twice (id : string) (transactions : list Transaction.t)
    (budgets : list Budget.t) :
  deleteTransaction id (fst (deleteTransaction id transactions))
  = (fst (deleteTransaction id transactions), Resolved false) /\
  deleteBudget id (fst (deleteBudget id budgets))
  = (fst (deleteBudget id budgets), Resolved false).
Proof.
  split.
  - rewrite deleteTransaction_result. unfold deleteTransaction.
    now rewrite findIndex_after_filter.
  - rewrite deleteBudget_result. unfold deleteBudget.
    now rewrite (findIndex_after_filter (fun b => (Budget.id b =? id)%string)).
Qed.

(** X5: [deleteBudget] keeps at most one budget per (month, category)
    pair. *)
Theorem deleteBudget_keeps_one_per_pair (id : string) (budgets : list Budget.t) :
  onePerPair budgets -> onePerPair (fst (deleteBudget id budgets)).
Proof.
  unfold onePerPair. intros Hinv. rewrite deleteBudget_result.
  now apply NoDup_map_filter.
Qed.

Lemma deleteBudget_keeps_one_per_pair_witness :
  onePerPair (fst (deleteBudget "b1" [groceriesBudget; rentBudget])).
Proof.
  apply deleteBudget_keeps_one_per_pair.
  repeat constructor; simpl; [intros [E|[]]; discriminate E|intros []].
Defined.

Lemma filter_assign {A : Type} (q : A -> bool) (l : list A) (i : nat)
    (x y : A) :
  nth_error l i = Some x -> q x = false -> q y = false ->
  filter q (Js.assign l i y) = filter q l.
Proof.
  revert i. induction l as [|z l IH]; intros [|i]; simpl; try discriminate.
  - intros [= ->] Hx Hy. now rewrite Hx, Hy.
  - intros Hn Hx Hy. now rewrite (IH i Hn Hx Hy).
Qed.

Lemma find_ext_bool {A : Type} (p q : A -> bool) (l : list A) :
  (forall x, p x = q x) -> find p l = find q l.
Proof.
  intros Hpq. induction l as [|x l IH]; simpl; trivial.
  rewrite Hpq, IH. reflexivity.
Qed.

Lemma find_head_filter {A : Type} (p : A -> bool) (l : list A) :
  find p l = hd_error (filter p l).
Proof.
  induction l as [|x l IH]; simpl; trivial.
  destruct (p x); simpl; trivial.
Qed.

(** The result of an upsert made from the current render, on any list. *)
Lemma upsert_frame (st : list Budget.t) (d : Budget.draft) (ts nid : string) :
  exists st1 r1,
    upsert st d ts nid = Some (st1, Resolved r1) /\
    samePair d r1 = true /\ Budget.amount r1 = Budget.d_amount d /\
    Budget.updatedAt r1 = ts /\ In r1 st1 /\
    filter (fun b => negb (samePair d b)) st1
    = filter (fun b => negb (samePair d b)) st.
Proof.
  unfold upsert, addOrUpdateBudget.
  pose proof (findIndex_lower (samePair d) st) as Hlow.
  destruct (0 <=? Js.findIndex (samePair d) st) eqn:E.
  - apply Z.leb_le in E.
    destruct (findIndex_some _ _ E) as (x & Hn & Px & _).
    unfold Js.at_. destruct (Js.findIndex (samePair d) st <? 0) eqn:E';
      [apply Z.ltb_lt in E'; lia|].
    rewrite Hn. do 2 eexists. split; [reflexivity|].
    assert (Pnew : samePair d (withAmount x (Budget.d_amount d) ts) = true)
      by exact Px.
    split; [exact Pnew|]. split; [reflexivity|]. split; [reflexivity|].
    split; [eapply assign_In; eauto|].
    apply (filter_assign _ _ _ x); trivial; now apply negb_false_iff.
  - apply Z.leb_gt in E. do 2 eexists. split; [reflexivity|].
    assert (Pnew : samePair d
              (Budget.mk nid (Budget.d_month d) (Budget.d_category d)
                 (Budget.d_amount d) ts ts) = true).
    { unfold samePair; simpl. now rewrite !String.eqb_refl. }
    split; [exact Pnew|]. split; [reflexivity|]. split; [reflexivity|].
    split; [apply in_or_app; right; now left|].
    rewrite filter_app; simpl. rewrite Pnew; simpl. apply app_nil_r.
Qed.

(** X6: an upsert made from the current render never touches the budgets of
    another (month, category) pair: whatever the list, they are the same
    ones in the same order afterwards, and the budget it resolves with is
    stored, has the pair of the draft, its amount, and the timestamp as
    [updatedAt]. *)
Theorem addOrUpdateBudget_leaves_other_pairs (st : list Budget.t)
    (d : Budget.draft) (ts nid : string) :
  exists st1 r1,
    addOrUpdateBudget st d ts nid st = Some (st1, Resolved r1) /\
    filter (fun b => negb (samePair d b)) st1
    = filter (fun b => negb (samePair d b)) st /\
    In r1 st1 /\
    Budget.month r1 = Budget.d_month d /\
    Budget.category r1 = Budget.d_category d /\
    Budget.amount r1 = Budget.d_amount d /\
    Budget.updatedAt r1 = ts.
Proof.
  destruct (upsert_frame st d ts nid) as (st1 & r1 & E & P & Ha & Hu & Hin & Hf).
  exists st1, r1. apply samePair_iff in P. unfold pairOf in P.
  injection P as Hm Hc. repeat split; trivial.
Qed.

Lemma upsert_keeps_invariant (st : list Budget.t) (d : Budget.draft)
    (ts nid : string) :
  onePerPair st ->
  exists st1 r1,
    upsert st d ts nid = Some (st1, Resolved r1) /\ onePerPair st1 /\
    In r1 st1 /\ samePair d r1 = true /\
    Budget.amount r1 = Budget.d_amount d.
Proof.
  intros Hinv.
  destruct (find (samePair d) st) as [old|] eqn:Hf.
  - apply find_some in Hf. destruct Hf as [Hin Pold].
    destruct (upsert_existing st d ts nid old Hinv Hin Pold) as (i & Hn & E).
    do 2 eexists. split; [exact E|].
    split; [now apply onePerPair_assign|].
    split; [eapply assign_In; eauto|]. split; [exact Pold|reflexivity].
  - rewrite find_none_iff in Hf. rewrite (upsert_absent st d ts nid Hf).
    do 2 eexists. split; [reflexivity|]. split; [|split; [|split]].
    + apply onePerPair_append; trivial.
      intros x Hx Heq. specialize (Hf x Hx).
      assert (samePair d x = true) by (apply samePair_iff; now rewrite Heq).
      congruence.
    + apply in_or_app. right. now left.
    + unfold samePair; simpl. now rewrite !String.eqb_refl.
    + reflexivity.
Qed.

Lemma budgetFor_single (d : Budget.draft) (st : list Budget.t) (b : Budget.t) :
  budgetsFor d st = [b] ->
  budgetFor (Budget.d_month d) (Budget.d_category d) st = Budget.amount b.
Proof.
  intros Hb. unfold budgetFor.
  rewrite (find_ext_bool _ (samePair d)).
  - rewrite find_head_filter. unfold budgetsFor in Hb. now rewrite Hb.
  - intros x. unfold samePair. apply andb_comm.
Qed.

(** X7: after an upsert on a list with at most one budget per pair, the
    comparison of the month of the draft has exactly one row for its
    category, whose [budgeted] is the amount of the draft. *)
Theorem upsert_then_compareBudgetWithActual `{DateEnv} (st : list Budget.t)
    (d : Budget.draft) (ts nid : string) (transactions : list Transaction.t) :
  onePerPair st -> Budget.d_month d <> "" ->
  exists st1 r1,
    addOrUpdateBudget st d ts nid st = Some (st1, Resolved r1) /\
    exists row,
      filter
        (fun r => (Comparison.category r =? Budget.d_category d)%string)
        (compareBudgetWithActual transactions st1 (Budget.d_month d))
      = [row] /\
      Comparison.budgeted row = Budget.d_amount d /\
      Comparison.difference row = Budget.d_amount d - Comparison.actual row.
Proof.
  intros Hinv Hm.
  destruct (upsert_keeps_invariant st d ts nid Hinv)
    as (st1 & r1 & E & Hinv1 & Hin & P & Ha).
  exists st1, r1. split; [exact E|].
  pose proof (budgetsFor_single d st1 r1 Hinv1 Hin P) as Hone.
  pose proof (budgetFor_single d st1 r1 Hone) as Hfor. rewrite Ha in Hfor.
  apply samePair_iff in P. unfold pairOf in P. injection P as Hmonth Hcat.
  set (rows := compareBudgetWithActual transactions st1 (Budget.d_month d)).
  assert (Hc : In (Budget.d_category d) (map Comparison.category rows)).
  { unfold rows. rewrite (compareBudgetWithActual_categories _ _ _ Hm).
    rewrite newSet_In, in_app_iff. right. rewrite <- Hcat. apply in_map.
    apply filter_In. split; trivial. now apply String.eqb_eq. }
  apply in_map_iff in Hc. destruct Hc as (row & Hrc & Hr).
  assert (Hnd : NoDup (map Comparison.category rows)).
  { unfold rows. rewrite (compareBudgetWithActual_categories _ _ _ Hm).
    apply newSet_NoDup. }
  exists row. rewrite <- Hrc. split; [now apply filter_key_single|].
  unfold rows in Hr. rewrite (compareBudgetWithActual_rows _ _ _ Hm) in Hr.
  apply in_map_iff in Hr. destruct Hr as (c & <- & _). simpl in *.
  subst c. rewrite Hfor. split; reflexivity.
Qed.

Lemma upsert_then_compareBudgetWithActual_witness :
  exists st1 r1,
    addOrUpdateBudget [groceriesBudget] rentDraft "now" "b9" [groceriesBudget]
    = Some (st1, Resolved r1) /\
    exists row,
      filter (fun r => (Comparison.category r =? "Rent")%string)
        (compareBudgetWithActual [groceries] st1 "2025-01")
      = [row] /\
      Comparison.budgeted row = 650.
Proof.
  assert (Hinv : onePerPair [groceriesBudget]).
  { repeat constructor. intros []. }
  assert (Hm : Budget.d_month rentDraft <> "") by discriminate.
  destruct (upsert_then_compareBudgetWithActual [groceriesBudget] rentDraft
              "now" "b9" [groceries] Hinv Hm)
    as (st1 & r1 & E & row & Hrow & Hb & _).
  exists st1, r1. split; [exact E|]. exists row. split; [exact Hrow|exact Hb].
Defined.

(** * Further properties of the month listings *)

Lemma compareStrings_total (a b : string) :
  0 < Js.compareStrings a b -> Js.compareStrings b a <= 0.
Proof.
  unfold Js.compareStrings. rewrite (String.compare_antisym a b).
  destruct (String.compare b a); simpl; lia.
Qed.

Lemma sortStrings_ascending (l : list string) :
  NoDup l -> StronglySorted stringBefore (Js.sort Js.compareStrings l).
Proof.
  intros Hnd.
  assert (Hnd' : NoDup (Js.sort Js.compareStrings l)).
  { eapply Permutation_NoDup; [symmetry; apply sort_perm|exact Hnd]. }
  pose proof (sort_sorted Js.compareStrings compareStrings_total l) as Hs.
  apply Sorted_StronglySorted.
  - intros a b c. apply compare_lt_trans.
  - induction Hs as [|a l' Hs IH Hhd]; [constructor|].
    inversion Hnd' as [|? ? Hnotin Hnd'']; subst.
    constructor; [now apply IH|].
    destruct Hhd as [|b l'' Hab]; constructor.
    unfold stringBefore, Js.compareStrings in *.
    destruct (String.compare a b) eqn:E; trivial; [|lia].
    apply String.compare_eq_iff in E. subst b.
    exfalso. apply Hnotin. now left.
Qed.

Lemma StronglySorted_snoc {A : Type} (R : A -> A -> Prop) (l : list A) (x : A) :
  StronglySorted R l -> Forall (fun y => R y x) l ->
  StronglySorted R (l ++ [x]).
Proof.
  induction 1 as [|a l Hs IH Ha]; simpl; intros Hall.
  - repeat constructor.
  - inversion Hall as [|? ? Hax Hall']; subst.
    constructor; [now apply IH|].
    apply Forall_app. split; trivial. now constructor.
Qed.

Lemma StronglySorted_rev {A : Type} (R : A -> A -> Prop) (l : list A) :
  StronglySorted R l -> StronglySorted (fun a b => R b a) (rev l).
Proof.
  induction 1 as [|a l Hs IH Ha]; simpl; [constructor|].
  apply StronglySorted_snoc; trivial.
  apply Forall_forall. intros y Hy. apply in_rev in Hy.
  rewrite Forall_forall in Ha. now apply Ha.
Qed.

Lemma StronglySorted_map {A B : Type} (f : A -> B) (R : B -> B -> Prop)
    (l : list A) :
  StronglySorted (fun a b => R (f a) (f b)) l -> StronglySorted R (map f l).
Proof.
  induction 1 as [|a l Hs IH Ha]; simpl; constructor; trivial.
  apply Forall_forall. intros y Hy. apply in_map_iff in Hy.
  destruct Hy as (x & <- & Hx). rewrite Forall_forall in Ha. now apply Ha.
Qed.

(** Two strictly ascending lists with the same elements are the same
    list. *)
Lemma ascending_unique (l1 l2 : list string) :
  StronglySorted stringBefore l1 -> StronglySorted stringBefore l2 ->
  (forall x, In x l1 <-> In x l2) -> l1 = l2.
Proof.
  assert (Hirr : forall a, ~ stringBefore a a).
  { intros a Ha. unfold stringBefore in Ha.
    assert (String.compare a a = Eq) by (now apply String_as_OT.cmp_eq).
    congruence. }
  assert (Hasym : forall a b, stringBefore a b -> stringBefore b a -> False).
  { intros a b Hab Hba. apply (Hirr a). eapply compare_lt_trans; eauto. }
  intros Hs1. revert l2.
  induction Hs1 as [|a l1 Hs1 IH Ha]; intros l2 Hs2 Hsame.
  - destruct l2 as [|b l2]; trivial.
    exfalso. apply (Hsame b). now left.
  - destruct Hs2 as [|b l2 Hs2 Hb].
    + exfalso. apply (Hsame a). now left.
    + rewrite Forall_forall in Ha, Hb.
      assert (a = b).
      { destruct (proj1 (Hsame a) (or_introl eq_refl)) as [->|Hin]; trivial.
        destruct (proj2 (Hsame b) (or_introl eq_refl)) as [->|Hin']; trivial.
        exfalso. apply (Hasym a b); auto. }
      subst b. f_equal. apply IH; trivial.
      intros x. split; intros Hx.
      * destruct (proj1 (Hsame x) (or_intror Hx)) as [->|Hin]; trivial.
        exfalso. apply (Hirr x). now apply Ha.
      * destruct (proj2 (Hsame x) (or_intror Hx)) as [->|Hin]; trivial.
        exfalso. apply (Hirr x). now apply Hb.
Qed.

(** X8: [getBudgetMonths] lists the months in strictly descending order
    (latest first, none twice), and a month is listed exactly when
    [getBudgetsForMonth] returns a budget for it. *)
Theorem getBudgetMonths_descending (budgets : list Budget.t) :
  StronglySorted stringAfter (getBudgetMonths budgets) /\
  forall m, In m (getBudgetMonths budgets)
            <-> getBudgetsForMonth budgets m <> [].
Proof.
  unfold getBudgetMonths. split.
  - apply (StronglySorted_rev stringBefore).
    apply sortStrings_ascending. apply newSet_NoDup.
  - intros m. rewrite <- in_rev, sort_In, newSet_In, in_map_iff.
    unfold getBudgetsForMonth. split.
    + intros (b & Hm & Hb) Hnil.
      assert (Hin : In b (filter (fun x => (Budget.month x =? m)%string) budgets))
        by (apply filter_In; split; trivial; now apply String.eqb_eq).
      rewrite Hnil in Hin. destruct Hin.
    + intros Hne.
      destruct (filter (fun x => (Budget.month x =? m)%string) budgets)
        as [|b rest] eqn:E; [congruence|].
      assert (Hin : In b (b :: rest)) by now left.
      rewrite <- E in Hin. apply filter_In in Hin. destruct Hin as [Hb Hm].
      apply String.eqb_eq in Hm. eauto.
Qed.

Lemma filter_twice {A : Type} (p : A -> bool) (l : list A) :
  filter p (filter p l) = filter p l.
Proof.
  rewrite filter_filter. apply filter_ext. intros x. apply andb_diag.
Qed.

(** X9: the comparison only reads the budgets of its month: it is the same
    on the whole list of budgets and on [getBudgetsForMonth] of it. *)
Theorem compareBudgetWithActual_on_month_budgets `{DateEnv}
    (transactions : list Transaction.t) (budgets : list Budget.t)
    (m : string) :
  compareBudgetWithActual transactions (getBudgetsForMonth budgets m) m
  = compareBudgetWithActual transactions budgets m.
Proof.
  unfold compareBudgetWithActual, getBudgetsForMonth.
  destruct (m =? "")%string; trivial. now rewrite filter_twice.
Qed.

Section MonthFacts.
Context `{DateEnv}.

Lemma grouped_keys (l : list Transaction.t) :
  map MonthlyTotal.key (Js.values (fold_left groupStep l []))
  = Js.keys (fold_left groupStep l []) /\
  NoDup (Js.keys (fold_left groupStep l [])) /\
  forall k, In k (Js.keys (fold_left groupStep l []))
            <-> exists t, In t l /\ hasKey k t = true.
Proof.
  destruct (grouped_invariant l) as [Hnd Hb].
  set (g := fold_left groupStep l []) in *.
  split; [|split; [exact Hnd|]].
  - apply values_keys. intros k b Hin.
    apply (get_In g k b Hnd) in Hin. specialize (Hb k). rewrite Hin in Hb.
    now destruct Hb.
  - intros k. specialize (Hb k). split.
    + intros Hk. destruct (Js.get g k) as [b|] eqn:E.
      * destruct Hb as (_ & _ & t & d & Ht & Hd & Hkey & _).
        exists t. split; trivial. unfold hasKey. rewrite Hd.
        now apply String.eqb_eq.
      * apply get_none in E. contradiction.
    + intros (t & Ht & Hk). destruct (Js.get g k) as [b|] eqn:E.
      * destruct (In_dec string_dec k (Js.keys g)) as [|Hno]; trivial.
        apply get_none in Hno. congruence.
      * simpl in Hb. exfalso.
        assert (Hin : In t (datedIn k l)) by (apply filter_In; auto).
        rewrite Hb in Hin. destruct Hin.
Qed.

Lemma group_keys_ascending (l : list Transaction.t) :
  StronglySorted stringBefore
    (map MonthlyTotal.key (groupTransactionsByMonth l)) /\
  forall k, In k (map MonthlyTotal.key (groupTransactionsByMonth l))
            <-> exists t, In t l /\ hasKey k t = true.
Proof.
  rewrite groupTransactionsByMonth_sorted_values.
  destruct (grouped_keys l) as (Hkeys & Hnd & Hin).
  set (g := fold_left groupStep l []) in *.
  set (cmp := fun a b : MonthlyTotal.t =>
                Js.localeCompare (MonthlyTotal.key a) (MonthlyTotal.key b)).
  assert (Hperm : Permutation
            (map MonthlyTotal.key (Js.sort cmp (Js.values g))) (Js.keys g)).
  { rewrite <- Hkeys. apply Permutation_map. apply sort_perm. }
  split.
  - apply StronglySorted_map. apply sorted_distinct_strict.
    + apply (sort_sorted cmp). intros a b. apply localeCompare_total.
    + eapply Permutation_NoDup; [symmetry; exact Hperm|exact Hnd].
  - intros k. rewrite <- Hin.
    split; apply Permutation_in; [|symmetry]; exact Hperm.
Qed.

Lemma addMonth_skip (months : list string) (t : Transaction.t) :
  datedMonth t = None -> addMonth months t = months.
Proof.
  unfold datedMonth, addMonth. destruct (Transaction.date t) as [s|]; trivial.
  destruct (s =? "")%string; trivial. now intros ->.
Qed.

Lemma addMonth_dated (months : list string) (t : Transaction.t)
    (d : CalendarMonth) :
  datedMonth t = Some d ->
  addMonth months t
  = if Js.mem (monthKeyOf d) months then months
    else months ++ [monthKeyOf d].
Proof.
  unfold datedMonth, addMonth.
  destruct (Transaction.date t) as [s|]; [|discriminate].
  destruct (s =? "")%string; [discriminate|]. now intros ->.
Qed.

Lemma addMonth_fold (l : list Transaction.t) (months : list string) :
  NoDup months ->
  NoDup (fold_left addMonth l months) /\
  forall k, In k (fold_left addMonth l months)
            <-> In k months \/ exists t, In t l /\ hasKey k t = true.
Proof.
  revert months. induction l as [|t l IH]; intros months Hnd; simpl.
  - split; trivial. intros k. split; [tauto|].
    intros [?|(t & [] & _)]; trivial.
  - assert (Hstep : NoDup (addMonth months t) /\
              forall k, In k (addMonth months t)
                        <-> In k months \/ hasKey k t = true).
    { unfold hasKey. destruct (datedMonth t) as [d|] eqn:E.
      - rewrite (addMonth_dated months t d E).
        destruct (Js.mem (monthKeyOf d) months) eqn:Em.
        + split; trivial. intros k. rewrite String.eqb_eq.
          apply mem_In in Em. split; [tauto|]. intros [?|<-]; trivial.
        + assert (Hno : ~ In (monthKeyOf d) months).
          { intros Hin. apply mem_In in Hin. congruence. }
          split.
          * apply NoDup_app; trivial; [repeat constructor; intros []|].
            intros x Hx [<-|[]]. contradiction.
          * intros k. rewrite in_app_iff, String.eqb_eq; simpl. tauto.
      - rewrite (addMonth_skip months t E). split; trivial.
        intros k. split; [tauto|]. intros [?|?]; [trivial|discriminate]. }
    destruct Hstep as [Hnd' Hin']. destruct (IH _ Hnd') as [Hnd'' Hin''].
    split; trivial. intros k. rewrite Hin'', Hin'. split.
    + intros [[?|?]|(u & Hu & Hk)]; eauto.
    + intros [?|(u & [<-|Hu] & Hk)]; eauto.
Qed.

Lemma getTransactionsForMonth_filter (l : list Transaction.t) (m : string) :
  getTransactionsForMonth l m
  = if (m =? "")%string then [] else filter (inMonth m) l.
Proof.
  unfold getTransactionsForMonth.
  destruct l; simpl; destruct (m =? "")%string; trivial.
Qed.

Lemma sameMonth_iff (a b : CalendarMonth) :
  sameMonth a b = true
  <-> fullYear a = fullYear b /\ monthIndex a = monthIndex b.
Proof. unfold sameMonth. now rewrite andb_true_iff, !Z.eqb_eq. Qed.
End MonthFacts.

(** X10: [getAvailableMonths] lists, latest first, exactly the month keys of
    the buckets of [groupTransactionsByMonth]: it is that list of keys
    reversed, hence strictly descending. *)
Theorem getAvailableMonths_reversed_bucket_keys `{DateEnv}
    (transactions : list Transaction.t) :
  getAvailableMonths transactions
  = rev (map MonthlyTotal.key (groupTransactionsByMonth transactions)) /\
  StronglySorted stringAfter (getAvailableMonths transactions).
Proof.
  assert (Hmonths : getAvailableMonths transactions
            = rev (Js.sort Js.compareStrings
                     (fold_left addMonth transactions [])))
    by (destruct transactions; reflexivity).
  destruct (addMonth_fold transactions [] (NoDup_nil _)) as [Hnd Hin].
  destruct (group_keys_ascending transactions) as [Hasc Hkeys].
  pose proof (sortStrings_ascending _ Hnd) as Hsorted.
  rewrite Hmonths. split.
  - f_equal. apply ascending_unique; trivial.
    intros k. rewrite sort_In, Hin, Hkeys. simpl. tauto.
  - now apply (StronglySorted_rev stringBefore).
Qed.

(** X11: filtering by month twice is filtering once; a transaction kept for
    one month is not kept for a key that designates another month (another
    year or another month of the year); and a month key that designates no
    month, such as one without a hyphen, keeps nothing. *)
Theorem getTransactionsForMonth_months_disjoint `{DateEnv}
    (transactions : list Transaction.t) (m1 m2 : string) :
  getTransactionsForMonth (getTransactionsForMonth transactions m1) m1
  = getTransactionsForMonth transactions m1 /\
  (forall a b,
     monthOfKey m1 = Some a -> monthOfKey m2 = Some b ->
     (fullYear a <> fullYear b \/ monthIndex a <> monthIndex b) ->
     getTransactionsForMonth (getTransactionsForMonth transactions m1) m2
     = []) /\
  (monthOfKey m1 = None -> getTransactionsForMonth transactions m1 = []).
Proof.
  rewrite !getTransactionsForMonth_filter. split; [|split].
  - destruct (m1 =? "")%string; trivial. apply filter_twice.
  - intros a b Ha Hb Hab.
    destruct (m1 =? "")%string, (m2 =? "")%string; trivial.
    apply filter_none. intros t Ht. apply filter_In in Ht.
    destruct Ht as [_ Ht]. unfold inMonth in *.
    destruct (Transaction.date t) as [s|]; trivial.
    destruct (newDate s) as [d|]; trivial.
    rewrite Ha in Ht. rewrite Hb.
    destruct (sameMonth d b) eqn:Edb; trivial.
    apply sameMonth_iff in Ht, Edb. lia.
  - intros Hnone. destruct (m1 =? "")%string; trivial.
    apply filter_none. intros t _. unfold inMonth.
    destruct (Transaction.date t) as [s|]; trivial.
    destruct (newDate s); trivial. now rewrite Hnone.
Qed.

Lemma getTransactionsForMonth_months_disjoint_witness :
  getTransactionsForMonth
    (getTransactionsForMonth [groceries; salary; undated] "2025-01") "2025-02"
  = [] /\
  getTransactionsForMonth [groceries; salary; undated] "2025" = [].
Proof.
  destruct (getTransactionsForMonth_months_disjoint
              [groceries; salary; undated] "2025-01" "2025-02")
    as (_ & Hdisjoint & _).
  destruct (getTransactionsForMonth_months_disjoint
              [groceries; salary; undated] "2025" "2025-02")
    as (_ & _ & Hnone).
  split.
  - apply (Hdisjoint (mkMonth 2025 0) (mkMonth 2025 1));
      [reflexivity | reflexivity | right; simpl; lia].
  - apply Hnone. reflexivity.
Defined.

(** X12: income and the transactions of other months never change the
    comparison: it is the same on the whole list and on the expenses that
    [getTransactionsForMonth] keeps. *)
Theorem compareBudgetWithActual_reads_month_expenses `{DateEnv}
    (transactions : list Transaction.t) (budgets : list Budget.t)
    (m : string) :
  compareBudgetWithActual
    (filter isExpense (getTransactionsForMonth transactions m)) budgets m
  = compareBudgetWithActual transactions budgets m.
Proof.
  destruct (string_dec m "") as [->|Hm]; [reflexivity|].
  rewrite !(compareBudgetWithActual_rows _ _ _ Hm).
  rewrite getTransactionsForMonth_filter.
  apply String.eqb_neq in Hm. rewrite Hm.
  assert (Hsame : expensesIn m (filter isExpense (filter (inMonth m) transactions))
                  = expensesIn m transactions).
  { unfold expensesIn. rewrite !filter_filter. apply filter_ext.
    intros t. destruct (isExpense t), (inMonth m t); reflexivity. }
  now rewrite Hsame.
Qed.

(** * Further properties of the category totals *)

Lemma addExpense_fold_distinct (l : list Transaction.t) (o : Js.Obj Z) :
  NoDup (Js.keys o) -> NoDup (Js.keys (fold_left addExpense l o)).
Proof.
  revert o. induction l as [|t l IH]; intros o Hnd; simpl; trivial.
  apply IH. unfold addExpense. now apply keys_set_NoDup.
Qed.

Lemma calculateCategoryTotals_entries (l : list Transaction.t) :
  calculateCategoryTotals l
  = map (fun '(name, value) => CategoryTotal.mk name value)
      (fold_left addExpense (filter isExpense l) []).
Proof. destruct l; reflexivity. Qed.

Lemma spent_member (l : list Transaction.t) (t : Transaction.t) :
  In t l -> Z.abs (Transaction.amount t) <= spent l.
Proof.
  intros Ht. unfold spent. apply sumZ_elem_le.
  - intros y Hy. apply in_map_iff in Hy. destruct Hy as (u & <- & _).
    apply Z.abs_nonneg.
  - apply in_map_iff. eauto.
Qed.

Lemma categoryOrOther_label (t : Transaction.t) : categoryOrOther t = label t.
Proof.
  unfold categoryOrOther, label.
  destruct (Transaction.category t) as [[|c rest]|]; reflexivity.
Qed.

Lemma ofCategory_expenses (c : string) (l : list Transaction.t) :
  ofCategory c (filter isExpense l) = expensesUnder c l.
Proof.
  unfold ofCategory, expensesUnder. rewrite filter_filter.
  apply filter_ext. intros t. rewrite categoryOrOther_label.
  unfold isExpense. apply andb_comm.
Qed.

(** X13: [calculateCategoryTotals] returns one entry per category of the
    negative-amount transactions, a transaction without a category (none,
    or the empty one) counting under "Other": the names are pairwise
    distinct, a name is listed exactly when some negative-amount
    transaction counts under it, the value of an entry is the sum of the
    absolute values of the negative amounts counted under its name, and
    every value is positive.  Income is never counted. *)
Theorem calculateCategoryTotals_by_category
    (transactions : list Transaction.t) :
  let totals := calculateCategoryTotals transactions in
  NoDup (map CategoryTotal.name totals) /\
  (forall c,
     In c (map CategoryTotal.name totals) <->
     exists t, In t transactions /\ Transaction.amount t < 0 /\ label t = c) /\
  (forall r, In r totals ->
     CategoryTotal.value r
     = spent (expensesUnder (CategoryTotal.name r) transactions) /\
     0 < CategoryTotal.value r).
Proof.
  intros totals. unfold totals. rewrite calculateCategoryTotals_entries.
  set (E := filter isExpense transactions).
  set (o := fold_left addExpense E []).
  assert (Hnd : NoDup (Js.keys o))
    by (apply addExpense_fold_distinct; constructor).
  assert (Hnames : map CategoryTotal.name
            (map (fun '(name, value) => CategoryTotal.mk name value) o)
          = Js.keys o).
  { rewrite map_map. apply map_ext. now intros [k v]. }
  assert (Hkeys : forall c, In c (Js.keys o) <->
            exists t, In t transactions /\ Transaction.amount t < 0 /\
                      label t = c).
  { intros c. unfold o. rewrite addExpense_fold_keys. simpl. split.
    - intros [[]|(t & Ht & Hc)]. apply filter_In in Ht.
      destruct Ht as [Ht Pt]. apply Z.ltb_lt in Pt.
      rewrite categoryOrOther_label in Hc. eauto.
    - intros (t & Ht & Pt & Hc). right. exists t. split.
      + apply filter_In. split; trivial. now apply Z.ltb_lt.
      + now rewrite categoryOrOther_label. }
  rewrite Hnames. split; [exact Hnd|]. split; [exact Hkeys|].
  intros r Hr. apply in_map_iff in Hr. destruct Hr as ([k v] & <- & Hin).
  simpl. apply (get_In o k v Hnd) in Hin.
  pose proof (addExpense_fold_get E [] k) as Hget. fold o in Hget.
  rewrite Hin, orZero_some in Hget. simpl in Hget.
  unfold E in Hget. rewrite ofCategory_expenses in Hget.
  split; [exact Hget|]. rewrite Hget.
  assert (Hk : In k (Js.keys o)).
  { destruct (In_dec string_dec k (Js.keys o)) as [|Hno]; trivial.
    apply get_none in Hno. congruence. }
  apply Hkeys in Hk. destruct Hk as (t & Ht & Pt & Hc).
  assert (Hmem : In t (expensesUnder k transactions)).
  { apply filter_In. split; trivial.
    apply andb_true_iff. split; [now apply Z.ltb_lt|now apply String.eqb_eq]. }
  pose proof (spent_member _ _ Hmem). lia.
Qed.

(** An expense without a category is counted under "Other", next to one
    that names the category "Groceries". *)
Lemma calculateCategoryTotals_by_category_witness :
  calculateCategoryTotals [groceries; salary; undated; feast]
  = [CategoryTotal.mk "Groceries" 170; CategoryTotal.mk "Other" 7] /\
  spent (expensesUnder "Groceries" [groceries; salary; undated; feast]) = 170 /\
  spent (expensesUnder "Other" [groceries; salary; undated; feast]) = 7.
Proof.
  destruct (calculateCategoryTotals_by_category
              [groceries; salary; undated; feast]) as (_ & _ & Hvalue).
  split; [reflexivity|]. split.
  - destruct (Hvalue (CategoryTotal.mk "Groceries" 170)) as [E _];
      [now left|]. symmetry. exact E.
  - destruct (Hvalue (CategoryTotal.mk "Other" 7)) as [E _];
      [right; now left|]. symmetry. exact E.
Defined.

(** X14: the expenses by category of a month are the category totals of the
    transactions of that month: [calculateMonthlyExpensesByCategory] holds
    the entries that [calculateCategoryTotals] returns on
    [getTransactionsForMonth]. *)
Theorem calculateMonthlyExpensesByCategory_composes `{DateEnv}
    (transactions : list Transaction.t) (m : string) :
  map (fun '(name, value) => CategoryTotal.mk name value)
    (calculateMonthlyExpensesByCategory transactions m)
  = calculateCategoryTotals (getTransactionsForMonth transactions m).
Proof.
  rewrite calculateCategoryTotals_entries, getTransactionsForMonth_filter.
  destruct (string_dec m "") as [->|Hm].
  - unfold calculateMonthlyExpensesByCategory.
    now rewrite orb_true_r.
  - rewrite (monthlyExpenses_fold _ _ Hm).
    apply String.eqb_neq in Hm. rewrite Hm.
    unfold expensesIn. now rewrite filter_filter.
Qed.

(** * Further properties of the insights *)

Lemma underBudgetInsight_best (c : list Comparison.t) (r : Comparison.t) :
  In r c -> isUnderBudget r = true ->
  exists w,
    In w c /\ isUnderBudget w = true /\
    (forall r', In r' c -> isUnderBudget r' = true -> savings r' <= savings w) /\
    underBudgetInsight c
    = [Insight.mk
         (Insight.SavedIn (savings w) (Comparison.category w)
            (Js.roundPercent (savings w) (Comparison.budgeted w)))
         Insight.success].
Proof.
  intros Hr Pr.
  assert (Hf : In r (filter isUnderBudget c)) by (apply filter_In; auto).
  destruct (sort_head_exists (fun a b => savings b - savings a) _ _ Hf)
    as (w & rest & E).
  destruct (sort_descending_head savings _ _ _ E) as [Hw Hmax].
  apply filter_In in Hw. destruct Hw as [Hw Pw].
  exists w. repeat split; trivial.
  - intros r' Hr' Pr'. apply Hmax. apply filter_In; auto.
  - unfold underBudgetInsight. rewrite E. reflexivity.
Qed.

(** The five parts of the result, each empty or one insight of its rank. *)
Lemma insight_parts (c : list Comparison.t) :
  (overallInsight c = [] \/
   exists i, overallInsight c = [i] /\ rank i = 1) /\
  (overBudgetInsight c = [] \/
   exists i, overBudgetInsight c = [i] /\ rank i = 2) /\
  (underBudgetInsight c = [] \/
   exists i, underBudgetInsight c = [i] /\ rank i = 3) /\
  (topSpendingInsight (sortedByActual c) (totalActual c) = [] \/
   exists i, topSpendingInsight (sortedByActual c) (totalActual c) = [i]
             /\ rank i = 4) /\
  (unusedInsight (sortedByActual c) = [] \/
   exists i, unusedInsight (sortedByActual c) = [i] /\ rank i = 5).
Proof.
  repeat split.
  - unfold overallInsight. destruct (0 <? totalBudgeted c); [|now left].
    destruct (totalBudgeted c <? totalActual c); right; eauto.
  - unfold overBudgetInsight.
    destruct (Js.sort _ (filter isOverBudget c)); [now left|right; eauto].
  - unfold underBudgetInsight.
    destruct (Js.sort _ (filter isUnderBudget c)); [now left|right; eauto].
  - unfold topSpendingInsight. destruct (sortedByActual c) as [|w rest];
      [now left|].
    destruct (0 <? Comparison.actual w); [right; eauto|now left].
  - unfold unusedInsight.
    destruct (0 <? List.length (filter isUnused (sortedByActual c)))%nat;
      [right; eauto|now left].
Qed.

Lemma generateInsights_parts (c : list Comparison.t) (stats : Stats.t)
    (i : Insight.t) :
  In i (fst (generateInsights c stats)) ->
  In i (overallInsight c) \/ In i (overBudgetInsight c) \/
  In i (underBudgetInsight c) \/
  In i (topSpendingInsight (sortedByActual c) (totalActual c)) \/
  In i (unusedInsight (sortedByActual c)).
Proof.
  destruct c as [|r0 c0] eqn:Ec; [intros []|]. rewrite <- Ec.
  assert (Hne : c <> []) by (rewrite Ec; discriminate).
  rewrite (generateInsights_nonempty c stats Hne); simpl fst.
  rewrite !in_app_iff. tauto.
Qed.

Lemma part_rank (part : list Insight.t) (k : Z) (i : Insight.t) :
  part = [] \/ (exists j, part = [j] /\ rank j = k) -> In i part -> rank i = k.
Proof.
  intros [->|(j & -> & Hj)]; [intros []|]. intros [<-|[]]. exact Hj.
Qed.

(** X16: the insights come in a fixed order with at most one of each kind:
    their ranks (utilization, over budget, saved, top spending, unused
    budgets) are strictly increasing, so there are at most five. *)
Theorem generateInsights_fixed_order (c : list Comparison.t) (stats : Stats.t) :
  StronglySorted Z.lt (map rank (fst (generateInsights c stats))) /\
  (List.length (fst (generateInsights c stats)) <= 5)%nat.
Proof.
  destruct c as [|r0 c0] eqn:Ec; [split; [constructor|simpl; lia]|].
  rewrite <- Ec.
  assert (Hne : c <> []) by (rewrite Ec; discriminate). clear Ec r0 c0.
  rewrite (generateInsights_nonempty c stats Hne); simpl fst.
  destruct (insight_parts c) as (H1 & H2 & H3 & H4 & H5).
  destruct H1 as [-> | (i1 & -> & R1)], H2 as [-> | (i2 & -> & R2)],
    H3 as [-> | (i3 & -> & R3)], H4 as [-> | (i4 & -> & R4)],
    H5 as [-> | (i5 & -> & R5)]; simpl;
    rewrite ?R1, ?R2, ?R3, ?R4, ?R5;
    (split; [repeat constructor; lia|lia]).
Qed.

(** X17: when some row has a positive budget and spent less than it, the
    insights hold the saving of a row of largest saving among those rows, as
    a success, with the percentage of its budget; when no row is under
    budget, no saving is reported. *)
Theorem generateInsights_best_saving (c : list Comparison.t) (stats : Stats.t) :
  ((exists r, In r c /\ 0 < Comparison.budgeted r
              /\ Comparison.actual r < Comparison.budgeted r) ->
   exists w,
     In w c /\ 0 < Comparison.budgeted w /\
     Comparison.actual w < Comparison.budgeted w /\
     (forall r, In r c -> 0 < Comparison.budgeted r ->
        Comparison.actual r < Comparison.budgeted r ->
        Comparison.budgeted r - Comparison.actual r
        <= Comparison.budgeted w - Comparison.actual w) /\
     In (Insight.mk
           (Insight.SavedIn (Comparison.budgeted w - Comparison.actual w)
              (Comparison.category w)
              (Js.roundPercent (Comparison.budgeted w - Comparison.actual w)
                 (Comparison.budgeted w)))
           Insight.success)
       (fst (generateInsights c stats))) /\
  ((forall r, In r c ->
      ~ (0 < Comparison.budgeted r
         /\ Comparison.actual r < Comparison.budgeted r)) ->
   forall amount category p type,
     ~ In (Insight.mk (Insight.SavedIn amount category p) type)
         (fst (generateInsights c stats))).
Proof.
  split.
  - intros (r & Hr & Hb & Ha).
    assert (Hne : c <> []) by (intros ->; destruct Hr).
    assert (Pr : isUnderBudget r = true) by (apply isUnderBudget_iff; auto).
    destruct (underBudgetInsight_best c r Hr Pr) as (w & Hw & Pw & Hmax & E).
    apply isUnderBudget_iff in Pw. destruct Pw as [Hwb Hwa].
    exists w. repeat split; trivial.
    + intros r' Hr' Hb' Ha'. apply (Hmax r' Hr').
      apply isUnderBudget_iff; auto.
    + rewrite (generateInsights_nonempty c stats Hne); simpl fst.
      rewrite E, !in_app_iff. right. right. left. now left.
  - intros Hnone amount category p type Hin.
    assert (Hempty : underBudgetInsight c = []).
    { unfold underBudgetInsight.
      rewrite (filter_none isUnderBudget c); trivial.
      intros r Hr. destruct (isUnderBudget r) eqn:E; trivial.
      apply isUnderBudget_iff in E. now destruct (Hnone r Hr). }
    destruct (insight_parts c) as (H1 & H2 & _ & H4 & H5).
    apply generateInsights_parts in Hin. rewrite Hempty in Hin.
    destruct Hin as [Hin|[Hin|[[]|[Hin|Hin]]]].
    + now pose proof (part_rank _ _ _ H1 Hin).
    + now pose proof (part_rank _ _ _ H2 Hin).
    + now pose proof (part_rank _ _ _ H4 Hin).
    + now pose proof (part_rank _ _ _ H5 Hin).
Qed.

Lemma generateInsights_best_saving_witness :
  exists w,
    In w [rentRow; groceriesRow] /\
    In (Insight.mk
          (Insight.SavedIn (Comparison.budgeted w - Comparison.actual w)
             (Comparison.category w)
             (Js.roundPercent (Comparison.budgeted w - Comparison.actual w)
                (Comparison.budgeted w)))
          Insight.success)
      (fst (generateInsights [rentRow; groceriesRow] noStats)).
Proof.
  destruct (generateInsights_best_saving [rentRow; groceriesRow] noStats)
    as [Hbest _].
  destruct Hbest as (w & Hw & _ & _ & _ & Hin).
  - exists rentRow. split; [now left|]. split; reflexivity.
  - exists w. split; [exact Hw|exact Hin].
Defined.

Lemma sortedByActual_head (c : list Comparison.t) (r : Comparison.t) :
  In r c ->
  exists w rest,
    sortedByActual c = w :: rest /\ In w c /\
    forall r', In r' c -> Comparison.actual r' <= Comparison.actual w.
Proof.
  intros Hr. unfold sortedByActual.
  destruct (sort_head_exists
              (fun a b => Comparison.actual b - Comparison.actual a) c r Hr)
    as (w & rest & E).
  destruct (sort_descending_head Comparison.actual _ _ _ E) as [Hw Hmax].
  exists w, rest. auto.
Qed.

Lemma roundPercent_between (a b : Z) :
  0 <= a <= b -> 0 < b ->
  exists p, Js.roundPercent a b = Js.Finite p /\ 0 <= p <= 100.
Proof.
  intros Ha Hb. rewrite roundPercent_finite by lia.
  eexists. split; [reflexivity|]. split.
  - apply Z.div_pos; lia.
  - assert ((200 * a + b) / (2 * b) < 101); [|lia].
    apply Z.div_lt_upper_bound; lia.
Qed.

(** X18: when some row has spent something, the insights name a row of
    largest [actual] as the top spending category, as an info, with its
    share of the total actual; when no row has a negative [actual] that
    share is a whole number between 0 and 100; and when no row has spent
    anything, no top spending category is reported. *)
Theorem generateInsights_top_spending (c : list Comparison.t) (stats : Stats.t) :
  ((exists r, In r c /\ 0 < Comparison.actual r) ->
   exists w,
     In w c /\
     (forall r, In r c -> Comparison.actual r <= Comparison.actual w) /\
     In (Insight.mk
           (Insight.TopSpending (Comparison.category w) (Comparison.actual w)
              (Js.roundPercent (Comparison.actual w) (totalActual c)))
           Insight.info)
       (fst (generateInsights c stats)) /\
     ((forall r, In r c -> 0 <= Comparison.actual r) ->
      exists p,
        Js.roundPercent (Comparison.actual w) (totalActual c) = Js.Finite p /\
        0 <= p <= 100)) /\
  ((forall r, In r c -> Comparison.actual r <= 0) ->
   forall category amount p type,
     ~ In (Insight.mk (Insight.TopSpending category amount p) type)
         (fst (generateInsights c stats))).
Proof.
  split.
  - intros (r & Hr & Hpos).
    assert (Hne : c <> []) by (intros ->; destruct Hr).
    destruct (sortedByActual_head c r Hr) as (w & rest & E & Hw & Hmax).
    exists w. split; [exact Hw|]. split; [exact Hmax|]. split.
    + rewrite (generateInsights_nonempty c stats Hne); simpl fst.
      rewrite !in_app_iff. right. right. right. left.
      unfold topSpendingInsight. rewrite E.
      assert (Hwpos : 0 < Comparison.actual w)
        by (specialize (Hmax r Hr); lia).
      apply Z.ltb_lt in Hwpos. rewrite Hwpos. now left.
    + intros Hnonneg. pose proof (totalActual_ge c w Hnonneg Hw).
      specialize (Hmax r Hr). apply roundPercent_between; lia.
  - intros Hnone category amount p type Hin.
    assert (Hempty : topSpendingInsight (sortedByActual c) (totalActual c) = []).
    { unfold topSpendingInsight.
      destruct (sortedByActual c) as [|w rest] eqn:E; trivial.
      assert (Hw : In w c).
      { apply (sort_In (fun a b => Comparison.actual b - Comparison.actual a)).
        fold (sortedByActual c). rewrite E. now left. }
      specialize (Hnone w Hw).
      destruct (0 <? Comparison.actual w) eqn:E'; trivial.
      apply Z.ltb_lt in E'. lia. }
    destruct (insight_parts c) as (H1 & H2 & H3 & _ & H5).
    apply generateInsights_parts in Hin. rewrite Hempty in Hin.
    destruct Hin as [Hin|[Hin|[Hin|[[]|Hin]]]].
    + now pose proof (part_rank _ _ _ H1 Hin).
    + now pose proof (part_rank _ _ _ H2 Hin).
    + now pose proof (part_rank _ _ _ H3 Hin).
    + now pose proof (part_rank _ _ _ H5 Hin).
Qed.

Lemma generateInsights_top_spending_witness :
  exists w,
    In w [rentRow; groceriesRow] /\
    In (Insight.mk
          (Insight.TopSpending (Comparison.category w) (Comparison.actual w)
             (Js.roundPercent (Comparison.actual w)
                (totalActual [rentRow; groceriesRow])))
          Insight.info)
      (fst (generateInsights [rentRow; groceriesRow] noStats)) /\
    exists p,
      Js.roundPercent (Comparison.actual w)
        (totalActual [rentRow; groceriesRow]) = Js.Finite p /\
      0 <= p <= 100.
Proof.
  destruct (generateInsights_top_spending [rentRow; groceriesRow] noStats)
    as [Htop _].
  destruct Htop as (w & Hw & _ & Hin & Hp).
  - exists groceriesRow. split; [right; now left|reflexivity].
  - exists w. split; [exact Hw|]. split; [exact Hin|].
    apply Hp. intros r [<-|[<-|[]]]; simpl; lia.
Defined.

Lemma filter_length_perm {A : Type} (p : A -> bool) (l l' : list A) :
  Permutation l l' ->
  List.length (filter p l) = List.length (filter p l').
Proof.
  induction 1 as [|x l l' _ IH|x y l|l l' l'' _ IH1 _ IH2]; simpl; trivial.
  - destruct (p x); simpl; congruence.
  - destruct (p x), (p y); reflexivity.
  - congruence.
Qed.

(** X19: the insights report the unused budgets exactly when some row has a
    positive budget and nothing spent, as an info carrying the number of the
    rows of the comparison with [budgeted > 0] and [actual = 0]. *)
Theorem generateInsights_unused_budgets (c : list Comparison.t)
    (stats : Stats.t) :
  (forall n type,
     In (Insight.mk (Insight.NothingSpentIn n) type)
       (fst (generateInsights c stats))
     <-> type = Insight.info /\
         n = List.length
               (filter
                  (fun r =>
                     (0 <? Comparison.budgeted r) && (Comparison.actual r =? 0))
                  c) /\
         (0 < n)%nat) /\
  ((exists n type,
      In (Insight.mk (Insight.NothingSpentIn n) type)
        (fst (generateInsights c stats)))
   <-> exists r,
         In r c /\ 0 < Comparison.budgeted r /\ Comparison.actual r = 0).
Proof.
  set (unused := fun r : Comparison.t =>
         (0 <? Comparison.budgeted r) && (Comparison.actual r =? 0)).
  assert (Hcount : List.length (filter isUnused (sortedByActual c))
                   = List.length (filter unused c)).
  { transitivity (List.length (filter isUnused c)).
    - apply filter_length_perm. apply sort_perm.
    - reflexivity. }
  assert (Hiff : forall n type,
     In (Insight.mk (Insight.NothingSpentIn n) type)
       (fst (generateInsights c stats))
     <-> type = Insight.info /\ n = List.length (filter unused c)
         /\ (0 < n)%nat).
  { intros n type. split.
    - intros Hin. destruct (insight_parts c) as (H1 & H2 & H3 & H4 & _).
      apply generateInsights_parts in Hin.
      destruct Hin as [Hin|[Hin|[Hin|[Hin|Hin]]]].
      + now pose proof (part_rank _ _ _ H1 Hin).
      + now pose proof (part_rank _ _ _ H2 Hin).
      + now pose proof (part_rank _ _ _ H3 Hin).
      + now pose proof (part_rank _ _ _ H4 Hin).
      + unfold unusedInsight in Hin. rewrite Hcount in Hin.
        destruct (0 <? List.length (filter unused c))%nat eqn:E;
          [|destruct Hin].
        apply Nat.ltb_lt in E. destruct Hin as [[= <- <-]|[]]. auto.
    - intros (-> & -> & Hpos).
      assert (Hne : c <> []) by (intros ->; simpl in Hpos; lia).
      rewrite (generateInsights_nonempty c stats Hne); simpl fst.
      rewrite !in_app_iff. right. right. right. right.
      unfold unusedInsight. rewrite Hcount.
      apply Nat.ltb_lt in Hpos. rewrite Hpos. now left. }
  split; [exact Hiff|]. split.
  - intros (n & type & Hin). apply Hiff in Hin. destruct Hin as (_ & -> & Hpos).
    destruct (filter unused c) as [|r rest] eqn:E; [simpl in Hpos; lia|].
    assert (Hr : In r (filter unused c)) by (rewrite E; now left).
    apply filter_In in Hr. destruct Hr as [Hr Pr].
    apply andb_true_iff in Pr. destruct Pr as [Pb Pa].
    exists r. split; trivial. split; [now apply Z.ltb_lt|now apply Z.eqb_eq].
  - intros (r & Hr & Hb & Ha).
    exists (List.length (filter unused c)), Insight.info.
    apply Hiff. split; trivial. split; trivial.
    assert (Hin : In r (filter unused c)).
    { apply filter_In. split; trivial. unfold unused.
      apply andb_true_iff. split; [now apply Z.ltb_lt|now apply Z.eqb_eq]. }
    destruct (filter unused c); [destruct Hin|simpl; lia].
Qed.

(** The rent budget of 700 has nothing spent on it; the groceries budget
    has. *)
Lemma generateInsights_unused_budgets_witness :
  In (Insight.mk (Insight.NothingSpentIn 1) Insight.info)
    (fst (generateInsights [rentRow; groceriesRow] noStats)) /\
  ~ (exists n type,
       In (Insight.mk (Insight.NothingSpentIn n) type)
         (fst (generateInsights [groceriesRow] noStats))).
Proof.
  destruct (generateInsights_unused_budgets [rentRow; groceriesRow] noStats)
    as [Hcount _].
  destruct (generateInsights_unused_budgets [groceriesRow] noStats)
    as [_ Hsome].
  split.
  - apply Hcount. split; [reflexivity|]. split; [reflexivity|]. simpl. lia.
  - intros Hex. apply Hsome in Hex. destruct Hex as (r & [<-|[]] & _ & Ha).
    discriminate Ha.
Defined.

Lemma insert_in_front {A : Type} (compareFn : A -> A -> Z) (x : A)
    (l : list A) :
  Forall (fun y => compareFn x y <= 0) l -> Js.insert compareFn x l = x :: l.
Proof.
  destruct l as [|y l]; simpl; trivial.
  intros Hall. inversion Hall as [|? ? Hxy _]; subst.
  apply Z.leb_le in Hxy. now rewrite Hxy.
Qed.

Lemma sort_of_sorted {A : Type} (compareFn : A -> A -> Z) (l : list A) :
  StronglySorted (fun a b => compareFn a b <= 0) l ->
  Js.sort compareFn l = l.
Proof.
  induction 1 as [|x l Hs IH Hx]; simpl; trivial.
  rewrite IH. now apply insert_in_front.
Qed.

(** X20: what [generateInsights] leaves in the array it was given: the same
    rows, rearranged by descending [actual]; an array already in that order
    is left as it is. *)
Theorem generateInsights_leaves_rows_by_actual (c : list Comparison.t)
    (stats : Stats.t) :
  Permutation (snd (generateInsights c stats)) c /\
  StronglySorted spentAtLeast (snd (generateInsights c stats)) /\
  (StronglySorted spentAtLeast c -> snd (generateInsights c stats) = c).
Proof.
  assert (Hsnd : snd (generateInsights c stats) = sortedByActual c)
    by (destruct c; reflexivity).
  rewrite Hsnd. unfold sortedByActual.
  set (cmp := fun a b => Comparison.actual b - Comparison.actual a).
  assert (Hrel : forall a b, cmp a b <= 0 <-> spentAtLeast a b)
    by (intros a b; unfold cmp, spentAtLeast; lia).
  clear Hsnd. split; [apply sort_perm|]. split.
  - apply Sorted_StronglySorted.
    + intros x y z. unfold spentAtLeast. lia.
    + assert (Htotal : forall a b, 0 < cmp a b -> cmp b a <= 0)
        by (intros a b; unfold cmp; lia).
      pose proof (sort_sorted cmp Htotal c) as Hs.
      eapply Sorted_ind with
        (P := fun l => Sorted spentAtLeast l); [constructor| |exact Hs].
      intros a l _ IH Hhd. constructor; trivial.
      destruct Hhd; constructor. now apply Hrel.
  - intros Hs. apply sort_of_sorted.
    induction Hs as [|a l Hs' IH Ha]; constructor; [exact IH|].
    eapply Forall_impl; [|exact Ha]. intros b Hb. now apply Hrel.
Qed.



(** * Further properties of the charts *)

Lemma toChartData_sorted_bars (c : list Comparison.t) :
  toChartData c
  = Js.sort (fun a b => ChartRow.Actual b - ChartRow.Actual a)
      (map barOf
         (filter
            (fun item =>
               (0 <? Comparison.budgeted item)
               || (0 <? Comparison.actual item)) c)).
Proof.
  unfold toChartData. f_equal. apply map_ext. intros r.
  unfold barOf, isOverBudget. now rewrite andb_comm.
Qed.

(** X23: the bars of [BudgetComparisonChart] are those of the rows that
    have a positive budget or a positive actual, each flagged exactly when
    its row is over budget, from the highest [Actual] to the lowest; on the
    comparison of a month no category has two bars. *)
Theorem toChartData_bars `{DateEnv} (c : list Comparison.t)
    (transactions : list Transaction.t) (budgets : list Budget.t)
    (m : string) :
  StronglySorted barAtLeast (toChartData c) /\
  (forall bar,
     In bar (toChartData c) <->
     exists r, In r c /\
               (0 < Comparison.budgeted r \/ 0 < Comparison.actual r) /\
               bar = barOf r) /\
  (forall r, ChartRow.overBudget (barOf r) = true
             <-> 0 < Comparison.budgeted r
                 /\ Comparison.budgeted r < Comparison.actual r) /\
  NoDup
    (map ChartRow.category
       (toChartData (compareBudgetWithActual transactions budgets m))).
Proof.
  set (cmp := fun a b => ChartRow.Actual b - ChartRow.Actual a).
  assert (Htotal : forall a b, 0 < cmp a b -> cmp b a <= 0)
    by (intros a b; unfold cmp; lia).
  split; [|split; [|split]].
  - rewrite toChartData_sorted_bars. apply Sorted_StronglySorted.
    + intros x y z. unfold barAtLeast. lia.
    + pose proof (sort_sorted cmp Htotal) as Hs.
      eapply Sorted_ind with (P := fun l => Sorted barAtLeast l);
        [constructor| |apply Hs].
      intros a l _ IH Hhd. constructor; trivial.
      destruct Hhd; constructor. unfold barAtLeast, cmp in *. lia.
  - intros bar. rewrite toChartData_sorted_bars, sort_In, in_map_iff. split.
    + intros (r & <- & Hr). apply filter_In in Hr. destruct Hr as [Hr P].
      apply orb_true_iff in P. rewrite !Z.ltb_lt in P. eauto.
    + intros (r & Hr & P & ->). exists r. split; trivial.
      apply filter_In. split; trivial.
      apply orb_true_iff. now rewrite !Z.ltb_lt.
  - intros r. apply isOverBudget_iff.
  - rewrite toChartData_sorted_bars.
    set (rows := compareBudgetWithActual transactions budgets m).
    assert (Hnd : NoDup (map Comparison.category rows)).
    { unfold rows. destruct (string_dec m "") as [->|Hm].
      - rewrite compareBudgetWithActual_empty_key. constructor.
      - rewrite (compareBudgetWithActual_categories _ _ _ Hm).
        apply newSet_NoDup. }
    eapply Permutation_NoDup.
    + apply Permutation_map. symmetry. apply sort_perm.
    + rewrite map_map. simpl.
      now apply (NoDup_map_filter Comparison.category).
Qed.

(** * Further properties of the recent transactions *)

Section RecentFacts.
Context `{TimeEnv}.

Lemma byDateDescending_total (a b : Transaction.t) :
  0 < byDateDescending a b -> byDateDescending b a <= 0.
Proof.
  unfold byDateDescending. destruct (timeOf a), (timeOf b); lia.
Qed.

Lemma notOlder_trans (a b c : Transaction.t) :
  notOlder a b -> notOlder b c -> notOlder a c.
Proof.
  unfold notOlder. destruct (timeOf a), (timeOf b), (timeOf c); try easy. lia.
Qed.

Lemma sorted_by_valid_dates (l : list Transaction.t) :
  Sorted (fun a b => byDateDescending a b <= 0) l ->
  (forall t, In t l -> timeOf t <> None) ->
  StronglySorted notOlder l.
Proof.
  intros Hs Hvalid. apply Sorted_StronglySorted.
  - intros a b c. apply notOlder_trans.
  - induction Hs as [|a l Hs IH Hhd]; constructor.
    + apply IH. intros t Ht. apply Hvalid. now right.
    + destruct Hhd as [|b l Hab]; constructor.
      assert (Ha : timeOf a <> None) by (apply Hvalid; now left).
      assert (Hb : timeOf b <> None) by (apply Hvalid; right; now left).
      unfold notOlder, byDateDescending in *.
      destruct (timeOf a), (timeOf b); try congruence. lia.
Qed.
End RecentFacts.

(** X26: [getRecentTransactions] returns transactions of the list, none
    more often than the list holds it: together with the ones it leaves out
    they are a rearrangement of the list. For a limit that is not negative
    it returns that many, or all of them when there are fewer. When every
    date is valid the result runs from the newest to the oldest and nothing
    left out is newer than anything returned. *)
Theorem getRecentTransactions_newest_first `{TimeEnv}
    (transactions : list Transaction.t) (limit : Z) :
  exists older,
    Permutation (getRecentTransactions transactions limit ++ older)
      transactions /\
    (0 <= limit ->
     List.length (getRecentTransactions transactions limit)
     = Nat.min (Z.to_nat limit) (List.length transactions)) /\
    ((forall t, In t transactions -> timeOf t <> None) ->
     StronglySorted notOlder
       (getRecentTransactions transactions limit ++ older)).
Proof.
  set (sorted := Js.sort byDateDescending transactions).
  assert (Hperm : Permutation sorted transactions) by apply sort_perm.
  assert (Hrecent : getRecentTransactions transactions limit
                    = Js.slice0 sorted limit).
  { unfold getRecentTransactions, sorted. destruct transactions; trivial.
    unfold Js.slice0; simpl. destruct (limit <? 0); now rewrite firstn_nil. }
  rewrite Hrecent. unfold Js.slice0.
  set (n := if limit <? 0
            then Z.to_nat (Z.of_nat (List.length sorted) + limit)
            else Z.to_nat limit).
  assert (Hslice : (if limit <? 0
                    then firstn (Z.to_nat (Z.of_nat (List.length sorted) + limit))
                           sorted
                    else firstn (Z.to_nat limit) sorted) = firstn n sorted)
    by (unfold n; now destruct (limit <? 0)).
  rewrite Hslice. exists (skipn n sorted). rewrite firstn_skipn.
  split; [exact Hperm|]. split.
  - intros Hlimit. unfold n.
    destruct (limit <? 0) eqn:E; [apply Z.ltb_lt in E; lia|].
    rewrite length_firstn. now rewrite (Permutation_length Hperm).
  - intros Hvalid. apply sorted_by_valid_dates.
    + apply sort_sorted. intros a b. apply byDateDescending_total.
    + intros t Ht. apply Hvalid. now apply (Permutation_in _ Hperm).
Qed.

Lemma getRecentTransactions_newest_first_witness :
  exists older,
    Permutation
      (getRecentTransactions [groceries; salary; groceries'; feast] 2 ++ older)
      [groceries; salary; groceries'; feast] /\
    List.length (getRecentTransactions [groceries; salary; groceries'; feast] 2)
    = 2%nat /\
    StronglySorted notOlder
      (getRecentTransactions [groceries; salary; groceries'; feast] 2 ++ older).
Proof.
  destruct (getRecentTransactions_newest_first
              [groceries; salary; groceries'; feast] 2)
    as (older & Hperm & Hlen & Hsorted).
  exists older. split; [exact Hperm|]. split.
  - apply Hlen. lia.
  - apply Hsorted. intros t [<-|[<-|[<-|[<-|[]]]]]; discriminate.
Defined.

(** * Further properties of the transaction table and the month selector *)

Lemma sorted_weaken {A : Type} (R R' : A -> A -> Prop) (l : list A) :
  (forall a b, R a b -> R' a b) -> Sorted R l -> Sorted R' l.
Proof.
  intros Hrel. induction 1 as [|a l Hs IH Hhd]; constructor; trivial.
  destruct Hhd; constructor. now apply Hrel.
Qed.

Lemma compareRows_amount_total `{TimeEnv} (direction : SortConfig.order)
    (a b : Transaction.t) :
  0 < compareRows (SortConfig.mk SortConfig.amount direction) a b ->
  compareRows (SortConfig.mk SortConfig.amount direction) b a <= 0.
Proof.
  unfold compareRows; simpl.
  destruct (Transaction.amount a <? Transaction.amount b) eqn:Eab;
    destruct (Transaction.amount b <? Transaction.amount a) eqn:Eba;
    destruct direction; try lia;
    apply Z.ltb_lt in Eab; apply Z.ltb_lt in Eba; lia.
Qed.

(** X27: the rows that [TransactionList] shows are a rearrangement of the
    stored transactions, whatever the sort configuration. Sorted on the
    amount they are in ascending order of amount for 'asc' and in descending
    order for 'desc'. In the configuration the component starts with (date,
    'desc') their first rows are the recent transactions of the dashboard. *)
Theorem getSortedTransactions_rows `{TimeEnv} (sortConfig : SortConfig.t)
    (transactions : list Transaction.t) (limit : Z) :
  Permutation (getSortedTransactions sortConfig transactions) transactions /\
  StronglySorted
    (fun a b => Transaction.amount a <= Transaction.amount b)
    (getSortedTransactions (SortConfig.mk SortConfig.amount SortConfig.asc)
       transactions) /\
  StronglySorted
    (fun a b => Transaction.amount b <= Transaction.amount a)
    (getSortedTransactions (SortConfig.mk SortConfig.amount SortConfig.desc)
       transactions) /\
  getRecentTransactions transactions limit
  = Js.slice0 (getSortedTransactions initialSort transactions) limit.
Proof.
  assert (Hsort : forall cfg,
    getSortedTransactions cfg transactions
    = Js.sort (compareRows cfg) transactions)
    by (intros cfg; destruct transactions; reflexivity).
  split; [rewrite Hsort; apply sort_perm|]. split; [|split].
  - rewrite Hsort. apply Sorted_StronglySorted; [intros x y z; lia|].
    eapply sorted_weaken;
      [|apply sort_sorted; intros a b; apply compareRows_amount_total].
    intros a b. unfold compareRows; simpl.
    destruct (Transaction.amount a <? Transaction.amount b) eqn:Eab;
      [apply Z.ltb_lt in Eab; lia|].
    destruct (Transaction.amount b <? Transaction.amount a) eqn:Eba;
      [lia|]. apply Z.ltb_ge in Eab, Eba. lia.
  - rewrite Hsort. apply Sorted_StronglySorted; [intros x y z; lia|].
    eapply sorted_weaken;
      [|apply sort_sorted; intros a b; apply compareRows_amount_total].
    intros a b. unfold compareRows; simpl.
    destruct (Transaction.amount a <? Transaction.amount b) eqn:Eab; [lia|].
    destruct (Transaction.amount b <? Transaction.amount a) eqn:Eba;
      [apply Z.ltb_lt in Eba; lia|]. apply Z.ltb_ge in Eab, Eba. lia.
  - rewrite Hsort. unfold getRecentTransactions.
    destruct transactions; [|reflexivity].
    unfold Js.slice0; simpl. destruct (limit <? 0); now rewrite firstn_nil.
Qed.

(** X28: a click on a column header always selects that column. The order
    is 'desc' exactly when the column was already selected in 'asc' order,
    so a second click on the same header reverses the order of the first,
    and a third click gives the configuration of the first again. *)
Theorem requestSort_toggles (key : SortConfig.column)
    (sortConfig : SortConfig.t) :
  SortConfig.key (requestSort key sortConfig) = key /\
  (SortConfig.direction (requestSort key sortConfig) = SortConfig.desc
   <-> SortConfig.key sortConfig = key
       /\ SortConfig.direction sortConfig = SortConfig.asc) /\
  SortConfig.direction (requestSort key (requestSort key sortConfig))
  <> SortConfig.direction (requestSort key sortConfig) /\
  requestSort key (requestSort key (requestSort key sortConfig))
  = requestSort key sortConfig.
Proof.
  destruct sortConfig as [k d]. destruct key, k, d; simpl;
    repeat split; try discriminate; try reflexivity;
    try (intros [E1 E2]; discriminate); intros E; discriminate E.
Qed.

(** X29: the month selector offers the current month and the months that
    have a budget, nothing else, each once, the latest first. *)
Theorem availableMonths_offers_current_month (budgets : list Budget.t)
    (currentMonth : string) :
  StronglySorted stringAfter (availableMonths budgets currentMonth) /\
  forall m,
    In m (availableMonths budgets currentMonth)
    <-> m = currentMonth \/ exists b, In b budgets /\ Budget.month b = m.
Proof.
  unfold availableMonths. split.
  - apply (StronglySorted_rev stringBefore).
    apply sortStrings_ascending. apply newSet_NoDup.
  - intros m. rewrite <- in_rev, sort_In, newSet_In, in_app_iff.
    unfold getBudgetMonths.
    rewrite <- in_rev, sort_In, newSet_In, in_map_iff. simpl.
    split.
    + intros [(b & Hm & Hb)|[<-|[]]]; eauto.
    + intros [->|(b & Hb & Hm)]; eauto.
Qed.
